(** * render_verify_fbx: part/variant name resolution, texture cache and
      load telemetry of the model viewer

    The repository holds two builds of the same single-file viewer:
    - the FBX build (manifest lookup, "variant A"), and
    - the GLB build in [src/App.vue] (synthetic KTX2 file names, "variant B").

    Both share the string helpers, the texture cache and the telemetry
    tracker.  Every definition below is a shallow embedding of the
    TypeScript function of the same name. *)

From Stdlib Require Import NArith ZArith QArith Ascii String List Lia.
From stdpp Require Import base list gmap strings.

Local Open Scope N_scope.

(** ** JavaScript strings

    A JavaScript string is a sequence of UTF-16 code units; a code unit is
    modelled as an [N].  [js] injects a literal. *)

Module JS.

Definition js (s : string) : list N :=
  map N_of_ascii (list_ascii_of_string s).

Definition isDigit (c : N) : bool := (48 <=? c) && (c <=? 57).
Definition isLower (c : N) : bool := (97 <=? c) && (c <=? 122).
Definition isUpper (c : N) : bool := (65 <=? c) && (c <=? 90).
Definition isAlnum (c : N) : bool := isLower c || isUpper c || isDigit c.

(** The class [[a-z0-9_]] under the [i] flag, which is also the class
    [\w] used by [\b]: no code unit outside ASCII canonicalizes into it. *)
Definition isWordChar (c : N) : bool := isAlnum c || (c =? 95).

(** [\s] and the set removed by [String.prototype.trim]: WhiteSpace and
    LineTerminator code units. *)
Definition isWhiteSpace (c : N) : bool :=
  ((9 <=? c) && (c <=? 13)) || (c =? 32) || (c =? 160) || (c =? 5760)
  || ((8192 <=? c) && (c <=? 8202)) || (c =? 8232) || (c =? 8233)
  || (c =? 8239) || (c =? 8287) || (c =? 12288) || (c =? 65279).

(** [toLowerCase] restricted to the code units that survive the strip of
    [normalizeKey]; on them it only moves [A-Z] to [a-z]. *)
Definition lowerUnit (c : N) : N := if isUpper c then c + 32 else c.
Definition toLowerCase (s : list N) : list N := map lowerUnit s.

(** Truthiness of a string value: the empty string is falsy. *)
Definition truthy (s : list N) : bool :=
  match s with [] => false | _ :: _ => true end.

Fixpoint startsWith (s p : list N) : bool :=
  match p, s with
  | [], _ => true
  | _ :: _, [] => false
  | b :: p', a :: s' => (a =? b) && startsWith s' p'
  end.

Fixpoint includes (s p : list N) : bool :=
  startsWith s p ||
  match s with
  | [] => false
  | _ :: s' => includes s' p
  end.

Fixpoint trimStart (s : list N) : list N :=
  match s with
  | [] => []
  | c :: s' => if isWhiteSpace c then trimStart s' else s
  end.

Definition trimEnd (s : list N) : list N := rev (trimStart (rev s)).
Definition trim (s : list N) : list N := trimEnd (trimStart s).

(** [value.replace(/[^a-z0-9_]/gi, '').toLowerCase()] *)
Definition normalizeKey (value : list N) : list N :=
  toLowerCase (List.filter isWordChar value).

Fixpoint takeWhile (f : N -> bool) (s : list N) : list N :=
  match s with
  | [] => []
  | c :: s' => if f c then c :: takeWhile f s' else []
  end.

(** One attempt of [/mat[a-z0-9]+/i] at the start of [s]: the greedy [+]
    takes the whole run of alphanumerics. *)
Definition matchVariantAt (s : list N) : option (list N) :=
  match s with
  | m :: a :: t :: rest =>
    if (lowerUnit m =? 109) && (lowerUnit a =? 97) && (lowerUnit t =? 116)
       && truthy (takeWhile isAlnum rest)
    then Some (m :: a :: t :: takeWhile isAlnum rest)
    else None
  | _ => None
  end.

(** [value.match(/mat[a-z0-9]+/i)]: the leftmost position that matches. *)
Fixpoint matchVariant (s : list N) : option (list N) :=
  match matchVariantAt s with
  | Some m => Some m
  | None =>
    match s with
    | [] => None
    | _ :: s' => matchVariant s'
    end
  end.

(** [extractVariantName]; [None] stands for both [undefined] and [null]. *)
Definition extractVariantName (value : option (list N)) : option (list N) :=
  match value with
  | None => None
  | Some v => if truthy v then matchVariant v else None
  end.

(** [a ?? b] *)
Definition nullish {A} (a b : option A) : option A :=
  match a with Some _ => a | None => b end.

(** *** The pattern [mat[a-z0-9]+], case-insensitive, said without a scan

    A token is [m], [a], [t] in either case followed by one or more ASCII
    letters or digits.  The match of a search is the leftmost token that
    cannot be extended to the right. *)

Definition isVariantToken (tok : list N) : bool :=
  match tok with
  | m :: a :: t :: run =>
    ((m =? 109) || (m =? 77)) && ((a =? 97) || (a =? 65))
    && ((t =? 116) || (t =? 84)) && truthy run && forallb isAlnum run
  | _ => false
  end.

Definition LeftmostMatch (value tok : list N) : Prop :=
  exists pre post,
    value = pre ++ tok ++ post
    /\ isVariantToken tok = true
    /\ match post with [] => True | c :: _ => isAlnum c = false end
    /\ forall pre1 tok1 post1,
         value = pre1 ++ tok1 ++ post1 -> isVariantToken tok1 = true ->
         (length pre <= length pre1)%nat.

Definition NoMatch (value : list N) : Prop :=
  forall pre tok post, value = pre ++ tok ++ post -> isVariantToken tok = false.

End JS.

(** ** Scene graph, materials and textures (the parts of three.js used) *)

Module Three.

(** [Object3D]: a name and a parent link; the chain is finite. *)
Inductive Object3D :=
| Orphan (nm : list N)
| Child (nm : list N) (par : Object3D).

Definition name (o : Object3D) : list N :=
  match o with Orphan nm => nm | Child nm _ => nm end.

Definition parent (o : Object3D) : option Object3D :=
  match o with Orphan _ => None | Child _ p => Some p end.

(** The node itself followed by its ancestors, closest first. *)
Fixpoint chain (o : Object3D) : list Object3D :=
  match o with
  | Orphan _ => [o]
  | Child _ p => o :: chain p
  end.

Inductive ColorSpace := SRGBColorSpace | LinearSRGBColorSpace | NoColorSpace.

(** A decoded texture: [image] identifies the object the loader delivered. *)
Record Texture := mkTexture {
  image : N;
  colorSpace : ColorSpace;
  anisotropy : N;
  flipY : bool
}.

Record MeshStandardMaterial := mkStandard {
  color : N;
  metalness : Q;
  roughness : Q;
  envMapIntensity : Q;
  normalScale : Q * Q;
  map_ : option Texture;
  normalMap : option Texture;
  roughnessMap : option Texture;
  metalnessMap : option Texture;
  aoMap : option Texture;
  aoMapIntensity : Q
}.

(** Constructor defaults of three.js for the fields the viewer leaves out. *)
Definition newStandard (col : N) (metal rough env : Q) : MeshStandardMaterial :=
  mkStandard col metal rough env (1, 1)%Q None None None None None 1%Q.

Inductive Material :=
| Standard (nm : list N) (m : MeshStandardMaterial)
| OtherMaterial (nm : list N).

Definition materialName (m : Material) : list N :=
  match m with Standard nm _ => nm | OtherMaterial nm => nm end.

Definition isStandard (m : Material) : bool :=
  match m with Standard _ _ => true | OtherMaterial _ => false end.

Inductive MeshMaterial :=
| Single (m : Material)
| Multi (ms : list Material).

Record Geometry := mkGeometry { uv : option N; uv2 : option N }.

Record Mesh := mkMesh {
  node : Object3D;
  material : MeshMaterial;
  geometry : option Geometry;
  castShadow : bool;
  receiveShadow : bool
}.

Inductive TextureChannel := BaseColor | Normal | ORM.
Inductive Target := t_map | t_normalMap | t_roughnessMap | t_metalnessMap | t_aoMap.

Definition isAo (t : Target) : bool :=
  match t with t_aoMap => true | _ => false end.

(** [candidate[target] = tex] *)
Definition setTarget (c : MeshStandardMaterial) (t : Target) (tex : Texture)
  : MeshStandardMaterial :=
  match t with
  | t_map =>
    mkStandard (color c) (metalness c) (roughness c) (envMapIntensity c)
      (normalScale c) (Some tex) (normalMap c) (roughnessMap c)
      (metalnessMap c) (aoMap c) (aoMapIntensity c)
  | t_normalMap =>
    mkStandard (color c) (metalness c) (roughness c) (envMapIntensity c)
      (normalScale c) (map_ c) (Some tex) (roughnessMap c)
      (metalnessMap c) (aoMap c) (aoMapIntensity c)
  | t_roughnessMap =>
    mkStandard (color c) (metalness c) (roughness c) (envMapIntensity c)
      (normalScale c) (map_ c) (normalMap c) (Some tex)
      (metalnessMap c) (aoMap c) (aoMapIntensity c)
  | t_metalnessMap =>
    mkStandard (color c) (metalness c) (roughness c) (envMapIntensity c)
      (normalScale c) (map_ c) (normalMap c) (roughnessMap c)
      (Some tex) (aoMap c) (aoMapIntensity c)
  | t_aoMap =>
    mkStandard (color c) (metalness c) (roughness c) (envMapIntensity c)
      (normalScale c) (map_ c) (normalMap c) (roughnessMap c)
      (metalnessMap c) (Some tex) (aoMapIntensity c)
  end.

Definition setAoMapIntensity (c : MeshStandardMaterial) (v : Q)
  : MeshStandardMaterial :=
  mkStandard (color c) (metalness c) (roughness c) (envMapIntensity c)
    (normalScale c) (map_ c) (normalMap c) (roughnessMap c)
    (metalnessMap c) (aoMap c) v.

Definition setNormalScale (c : MeshStandardMaterial) (v : Q * Q)
  : MeshStandardMaterial :=
  mkStandard (color c) (metalness c) (roughness c) (envMapIntensity c)
    v (map_ c) (normalMap c) (roughnessMap c)
    (metalnessMap c) (aoMap c) (aoMapIntensity c).

(** [ensureUv2ForAo] *)
Definition ensureUv2ForAo (g : option Geometry) : option Geometry :=
  match g with
  | None => None
  | Some (mkGeometry (Some u) None) => Some (mkGeometry (Some u) (Some u))
  | Some g' => Some g'
  end.

(** The fallback of [applyMaterialsToMesh]:
    [new MeshStandardMaterial({color: 0x777777, metalness: 0.5, roughness: 0.6})] *)
Definition flatDefault : Material :=
  Standard [] (newStandard 7829367 0.5%Q 0.6%Q 1%Q).

End Three.

(** ** Variant A: the FBX build, textures named by the asset manifest *)

Module Fbx.
Import JS Three.

Definition textureBasePath : list N := js "https://cdn.rainnnn.com/textures".

(** [Partial<Record<TextureChannel, string>>] *)
Record Textures := mkTextures {
  tx_BaseColor : option (list N);
  tx_Normal : option (list N);
  tx_ORM : option (list N)
}.

Definition channel (t : Textures) (c : TextureChannel) : option (list N) :=
  match c with
  | BaseColor => tx_BaseColor t
  | Normal => tx_Normal t
  | ORM => tx_ORM t
  end.

(** A JSON object is kept as its own properties in [Object.keys] order. *)
Definition PartEntry := list (list N * Textures).
Definition TextureManifest := list (list N * PartEntry).

Definition keys {V} (o : list (list N * V)) : list (list N) := map fst o.

(** Property read [o[k]] for an own property. *)
Fixpoint prop {V} (o : list (list N * V)) (k : list N) : option V :=
  match o with
  | [] => None
  | (k', v) :: o' => if bool_decide (k' = k) then Some v else prop o' k
  end.

Record TextureMetaItem := mkMeta {
  suffix : TextureChannel;
  targets : list Target;
  srgb : option bool
}.

Definition textureMeta : list TextureMetaItem :=
  [ mkMeta BaseColor [t_map] (Some true);
    mkMeta Normal [t_normalMap] None;
    mkMeta ORM [t_aoMap; t_roughnessMap; t_metalnessMap] None ].

Record PartMeta := mkPartMeta { original : list N; normalized : list N }.

Record ManifestInfo := mkInfo { partKey : list N; textures : Textures }.

Section WithManifest.

Variable manifestData : TextureManifest.

Definition manifestPartMeta : list PartMeta :=
  map (fun key => mkPartMeta key (normalizeKey key)) (keys manifestData).

(** The test of one node: the callback given to [manifestPartMeta.find]. *)
Definition nodeMatches (normalizedName : list N) (m : PartMeta) : bool :=
  startsWith normalizedName (normalized m)
  || includes normalizedName (normalized m).

(** One turn of the [while (current)] loop: the match at this node. *)
Definition matchAtNode (current : Object3D) : option PartMeta :=
  let name := trim (Three.name current) in
  if truthy name
  then find (nodeMatches (normalizeKey name)) manifestPartMeta
  else None.

Fixpoint findPartKeyFromNode (current : Object3D) : option (list N) :=
  match matchAtNode current with
  | Some m => Some (original m)
  | None =>
    match current with
    | Orphan _ => None
    | Child _ p => findPartKeyFromNode p
    end
  end.

Definition findPartKeyFromObject (object : option Object3D) : option (list N) :=
  match object with
  | None => None
  | Some o => findPartKeyFromNode o
  end.

(** [variantName && Object.keys(partEntry).find(...) || Object.keys(partEntry)[0]];
    [None] is [undefined]. *)
Definition selectVariantKey (partEntry : PartEntry) (variantName : option (list N))
  : option (list N) :=
  let found :=
    match variantName with
    | Some v =>
      if truthy v
      then find (fun key => bool_decide (normalizeKey key = normalizeKey v))
                (keys partEntry)
      else None
    | None => None
    end in
  match found with
  | Some k => if truthy k then Some k else head (keys partEntry)
  | None => head (keys partEntry)
  end.

Definition variantNameOf (mesh : Mesh) (materialName : option (list N))
  : option (list N) :=
  nullish (extractVariantName materialName)
          (extractVariantName (Some (Three.name (node mesh)))).

Definition resolveManifestInfo (mesh : Mesh) (materialName : option (list N))
  : option ManifestInfo :=
  match findPartKeyFromObject (Some (node mesh)) with
  | None => None
  | Some partKey =>
    if negb (truthy partKey) then None else
    match prop manifestData partKey with
    | None => None
    | Some partEntry =>
      match selectVariantKey partEntry (variantNameOf mesh materialName) with
      | None => None
      | Some variantKey =>
        if negb (truthy variantKey) then None else
        match prop partEntry variantKey with
        | None => None
        | Some textures => Some (mkInfo partKey textures)
        end
      end
    end
  end.

(** How the awaited [loadTexture(path, srgb)] settles: [Some] is a
    resolution, [None] a rejection. *)
Variable loadTexture : list N -> bool -> option Texture.

Definition texturePathOf (info : ManifestInfo) (fileName : list N) : list N :=
  textureBasePath ++ js "/" ++ partKey info ++ js "/" ++ fileName.

(** The callback of [textureMeta.map]; the first component records the
    paths handed to [loadTexture], in call order. *)
Definition bindChannel (info : ManifestInfo)
  (acc : list (list N) * MeshStandardMaterial) (item : TextureMetaItem)
  : list (list N) * MeshStandardMaterial :=
  match channel (textures info) (suffix item) with
  | None => acc
  | Some fileName =>
    if negb (truthy fileName) then acc else
    let texturePath := texturePathOf info fileName in
    match loadTexture texturePath (default false (srgb item)) with
    | Some tex =>
      let bound := fold_left (fun c t => setTarget c t tex) (targets item) (snd acc) in
      (fst acc ++ [texturePath],
       if existsb isAo (targets item) then setAoMapIntensity bound 1%Q else bound)
    | None => (fst acc ++ [texturePath], snd acc)
    end
  end.

Definition buildMaterialForMesh (mesh : Mesh) (materialName : option (list N))
  : list (list N) * option MeshStandardMaterial :=
  match resolveManifestInfo mesh materialName with
  | None => ([], None)
  | Some manifestInfo =>
    let candidate := newStandard 16777215 1%Q 1%Q 1.2%Q in
    let r := fold_left (bindChannel manifestInfo) textureMeta ([], candidate) in
    (fst r, Some (snd r))
  end.

Definition applyMaterialsToMesh (mesh : Mesh) : Mesh :=
  let geometry' := ensureUv2ForAo (geometry mesh) in
  let material' :=
    match material mesh with
    | Multi ms =>
      Multi (map (fun existing =>
                    match snd (buildMaterialForMesh mesh (Some (materialName existing))) with
                    | Some created => Standard [] created
                    | None => existing
                    end) ms)
    | Single m =>
      match snd (buildMaterialForMesh mesh (Some (materialName m))) with
      | Some created => Single (Standard [] created)
      | None => if negb (isStandard m) then Single flatDefault else Single m
      end
    end in
  mkMesh (node mesh) material' geometry' true true.

End WithManifest.

End Fbx.

(** ** Variant B: the GLB build ([src/App.vue]), file names constructed *)

Module Glb.
Import JS Three.

Definition textureBasePath : list N := js "https://cdn.rainnnn.com/ktx/v3".

Inductive TextureColorSpace := cs_srgb | cs_linear | cs_none.

Record TextureMetaItem := mkMeta {
  suffix : TextureChannel;
  targets : list Target;
  colorSpace : option TextureColorSpace
}.

Definition textureMeta : list TextureMetaItem :=
  [ mkMeta BaseColor [t_map] (Some cs_srgb);
    mkMeta Normal [t_normalMap] (Some cs_none);
    mkMeta ORM [t_aoMap; t_roughnessMap; t_metalnessMap] (Some cs_none) ].

(** [value.replace(/\s+/g, '_')]: [inRun] tells that the previous code
    unit belonged to the run of white space already replaced. *)
Fixpoint replaceWhitespaceRuns (inRun : bool) (s : list N) : list N :=
  match s with
  | [] => []
  | c :: s' =>
    if isWhiteSpace c
    then (if inRun then replaceWhitespaceRuns true s'
          else 95 :: replaceWhitespaceRuns true s')
    else c :: replaceWhitespaceRuns false s'
  end.

(** One attempt of [/_low\b/] at the start of [s] (no [i] flag). *)
Definition lowWordAt (s : list N) : bool :=
  match s with
  | u :: l :: o :: w :: rest =>
    (u =? 95) && (l =? 108) && (o =? 111) && (w =? 119)
    && match rest with
       | [] => true
       | c :: _ => negb (isWordChar c)
       end
  | _ => false
  end.

(** [value.replace(/_low\b/g, '')]: [skip] counts the code units of the
    current match that are still to be dropped. *)
Fixpoint removeLowWords (skip : nat) (s : list N) : list N :=
  match s with
  | [] => []
  | c :: s' =>
    match skip with
    | S k => removeLowWords k s'
    | O => if lowWordAt s then removeLowWords 3 s' else c :: removeLowWords 0 s'
    end
  end.

Definition sanitizeName (value : list N) : list N :=
  normalizeKey (removeLowWords 0 (replaceWhitespaceRuns false value)).

(** [s.split('_')] *)
Fixpoint split (s : list N) : list (list N) :=
  match s with
  | [] => [[]]
  | c :: s' =>
    if c =? 95 then [] :: split s'
    else match split s' with
         | t :: ts => (c :: t) :: ts
         | [] => [[c]]
         end
  end.

(** [/^\d+$/.test(t)] *)
Definition isNumericToken (t : list N) : bool := truthy t && forallb isDigit t.

(** [tokens.findIndex(...)]; [None] is [-1]. *)
Fixpoint findIndex (f : list N -> bool) (tokens : list (list N)) : option nat :=
  match tokens with
  | [] => None
  | t :: ts => if f t then Some O else option_map S (findIndex f ts)
  end.

(** The [for] loop from [index] on: [rest] are the tokens at [i] and after. *)
Fixpoint collectTokens (rest collected : list (list N)) : list (list N) :=
  match rest with
  | [] => collected
  | token :: rest' =>
    if negb (truthy token) then collectTokens rest' collected
    else if startsWith token (js "mat") then collected
    else collectTokens rest' (collected ++ [token])
  end.

(** [collected.join('_')] *)
Fixpoint join (ts : list (list N)) : list N :=
  match ts with
  | [] => []
  | [t] => t
  | t :: ts' => t ++ 95 :: join ts'
  end.

(** [joined.replace(/_\d+$/, '')]: cut at the leftmost underscore that is
    followed by digits only up to the end. *)
Fixpoint stripInstanceSuffix (s : list N) : list N :=
  match s with
  | [] => []
  | c :: s' =>
    if (c =? 95) && isNumericToken s' then []
    else c :: stripInstanceSuffix s'
  end.

Definition extractPartKeyFromCandidate (value : option (list N))
  : option (list N) :=
  match value with
  | None => None
  | Some v =>
    if negb (truthy v) then None else
    let sanitized := sanitizeName v in
    let tokens := List.filter truthy (split sanitized) in
    match findIndex isNumericToken tokens with
    | None => None
    | Some index =>
      let collected := collectTokens (drop index tokens) [] in
      if (2 <=? length collected)%nat
      then Some (stripInstanceSuffix (join collected))
      else None
    end
  end.

(** The candidate names: mesh, material, then the ancestors outward. *)
Definition candidatesOf (object : option Object3D) (materialName : option (list N))
  : list (list N) :=
  let own :=
    match object with
    | Some o => if truthy (name o) then [name o] else []
    | None => []
    end in
  let mat :=
    match materialName with
    | Some m => if truthy m then [m] else []
    | None => []
    end in
  let ancestors :=
    match object with
    | Some (Child _ p) => List.filter truthy (map name (chain p))
    | _ => []
    end in
  own ++ mat ++ ancestors.

Fixpoint firstPart (candidates : list (list N)) : option (list N) :=
  match candidates with
  | [] => None
  | candidate :: rest =>
    match extractPartKeyFromCandidate (Some candidate) with
    | Some part => if truthy part then Some part else firstPart rest
    | None => firstPart rest
    end
  end.

Definition findPartKeyFromObject (object : option Object3D)
  (materialName : option (list N)) : option (list N) :=
  firstPart (candidatesOf object materialName).

Definition variantFileNameMap : list (list N * list N) :=
  [ (js "matmetal", js "MatMetal");
    (js "matpaint", js "MatPaint");
    (js "matrubber", js "matRubber") ].

Fixpoint prop (o : list (list N * list N)) (k : list N) : option (list N) :=
  match o with
  | [] => None
  | (k', v) :: o' => if bool_decide (k' = k) then Some v else prop o' k
  end.

Definition resolveVariantKey (variant : option (list N)) : list N :=
  let normalized := normalizeKey (default [] variant) in
  if truthy normalized then normalized else js "matmetal".

Definition suffixName (c : TextureChannel) : list N :=
  match c with
  | BaseColor => js "BaseColor"
  | Normal => js "Normal"
  | ORM => js "ORM"
  end.

Definition buildSharedTextureFileName (variantKey : list N) (suffix : TextureChannel)
  : list N :=
  let variantName := default variantKey (prop variantFileNameMap variantKey) in
  js "model_" ++ variantName ++ js "_" ++ suffixName suffix ++ js ".ktx2".

Record TextureDebugEntry := mkDebug {
  path : list N;
  status : bool;
  part : option (list N);
  variant : option (list N)
}.

(** [textureDebug.value = [...textureDebug.value.slice(-50), entry]] *)
Definition slice_last (n : nat) {A} (l : list A) : list A :=
  drop (length l - n)%nat l.

Definition pushTextureDebug (textureDebug : list TextureDebugEntry)
  (entry : TextureDebugEntry) : list TextureDebugEntry :=
  slice_last 50 textureDebug ++ [entry].

(** *** The extraction of the part key, said step by step

    The pipeline as the specification words it, over the step [lowStep]
    that removes [_low]: normalize, split on underscore (a token is a
    piece that is not empty), keep the tokens from the first purely numeric
    one up to the first one beginning with [mat], accept two or more, cut a
    trailing [_<digits>]. *)

Fixpoint dropUntil {A} (f : A -> bool) (l : list A) : list A :=
  match l with
  | [] => []
  | x :: l' => if f x then l else dropUntil f l'
  end.

Fixpoint takeUntil {A} (f : A -> bool) (l : list A) : list A :=
  match l with
  | [] => []
  | x :: l' => if f x then [] else x :: takeUntil f l'
  end.

(** Remove the suffix [_low] when the string ends with it. *)
Definition stripTrailingLow (s : list N) : list N :=
  match rev s with
  | w :: o :: l :: u :: r =>
    if (u =? 95) && (l =? 108) && (o =? 111) && (w =? 119) then rev r else s
  | _ => s
  end.

(** Remove a suffix made of an underscore and one or more digits. *)
Definition stripTrailingIndex (s : list N) : list N :=
  let r := rev s in
  let digits := takeWhile isDigit r in
  match digits, drop (length digits) r with
  | _ :: _, u :: rest => if u =? 95 then rev rest else s
  | _, _ => s
  end.

Definition extractPartKeySpec (lowStep : list N -> list N)
  (value : option (list N)) : option (list N) :=
  match value with
  | None => None
  | Some v =>
    if truthy v then
      let normalized := normalizeKey (lowStep (replaceWhitespaceRuns false v)) in
      let tokens := List.filter truthy (split normalized) in
      let collected :=
        takeUntil (fun t => startsWith t (js "mat"))
                  (dropUntil isNumericToken tokens) in
      if (2 <=? length collected)%nat
      then Some (stripTrailingIndex (join collected))
      else None
    else None
  end.

(** Some [_low] stands before a code unit that is not a word character. *)
Fixpoint lowBeforeNonWord (s : list N) : bool :=
  match s with
  | [] => false
  | _ :: s' =>
    match s with
    | u :: l :: o :: w :: c :: _ =>
      (u =? 95) && (l =? 108) && (o =? 111) && (w =? 119) && negb (isWordChar c)
    | _ => false
    end || lowBeforeNonWord s'
  end.

Section WithLoader.

(** How the awaited [loadTexture(path, colorSpace, partKey, variant)]
    settles: [Some] is a resolution, [None] a rejection. *)
Variable loadTexture :
  list N -> TextureColorSpace -> option (list N) -> option (list N) -> option Texture.

Definition bindChannel (partKey : option (list N)) (variantKey variantLabel : list N)
  (acc : list (list N) * MeshStandardMaterial) (item : TextureMetaItem)
  : list (list N) * MeshStandardMaterial :=
  let fileName := buildSharedTextureFileName variantKey (suffix item) in
  let texturePath := textureBasePath ++ js "/" ++ fileName in
  match loadTexture texturePath (default cs_linear (colorSpace item))
                    partKey (Some variantLabel) with
  | Some tex =>
    let bound := fold_left (fun c t => setTarget c t tex) (targets item) (snd acc) in
    (fst acc ++ [texturePath],
     if existsb isAo (targets item) then setAoMapIntensity bound 1%Q else bound)
  | None => (fst acc ++ [texturePath], snd acc)
  end.

Definition variantRawOf (mesh : Mesh) (materialName : option (list N))
  : option (list N) :=
  let partKey := findPartKeyFromObject (Some (node mesh)) materialName in
  nullish (nullish (extractVariantName materialName)
                   (extractVariantName (Some (name (node mesh)))))
          (extractVariantName partKey).

Definition variantKeyOf (mesh : Mesh) (materialName : option (list N)) : list N :=
  resolveVariantKey (variantRawOf mesh materialName).

Definition buildMaterialForMesh (mesh : Mesh) (materialName : option (list N))
  : list (list N) * option MeshStandardMaterial :=
  let partKey := findPartKeyFromObject (Some (node mesh)) materialName in
  let variantKey := variantKeyOf mesh materialName in
  let variantLabel := default variantKey (prop variantFileNameMap variantKey) in
  let candidate :=
    setNormalScale (newStandard 16777215 1%Q 1%Q 1.2%Q) (1, -1)%Q in
  let r := fold_left (bindChannel partKey variantKey variantLabel)
                     textureMeta ([], candidate) in
  (fst r, Some (snd r)).

(** The second component tells whether the gray fallback branch ran. *)
Definition applyMaterialsToMesh (mesh : Mesh) : Mesh * bool :=
  let geometry' := ensureUv2ForAo (geometry mesh) in
  let material' :=
    match material mesh with
    | Multi ms =>
      (Multi (map (fun existing =>
                     match snd (buildMaterialForMesh mesh (Some (materialName existing))) with
                     | Some created => Standard [] created
                     | None => existing
                     end) ms), false)
    | Single m =>
      match snd (buildMaterialForMesh mesh (Some (materialName m))) with
      | Some created => (Single (Standard [] created), false)
      | None =>
        if negb (isStandard m) then (Single flatDefault, true)
        else (Single m, false)
      end
    end in
  (mkMesh (node mesh) (fst material') geometry' true true, snd material').

End WithLoader.

End Glb.

(** ** Telemetry tracker (the same code in both builds)

    Clock readings ([nowRelative()]) and byte counts are integers; every
    function that reads the clock takes the reading as [now]. *)

Module Tracker.

Local Open Scope Z_scope.

Record MetricItem := mkItem {
  durationMs : option Z;
  sizeBytes : option Z
}.

Record LoadMetrics := mkMetrics {
  total : MetricItem;
  model : MetricItem;
  textures : MetricItem
}.

Record Tracking := mkTracking {
  loadMetrics : LoadMetrics;
  textureLoadsInFlight : Z;
  textureLoadStart : option Z;
  modelLoadStart : option Z;
  modelSizeRecorded : bool;
  hasRenderedFirstFrame : bool;
  recordedTextureAssets : gset (list N);
  assetSizeCache : gmap (list N) Z;
  loading : bool
}.

Definition nullItem : MetricItem := mkItem None None.

(** Module state when the component is set up: [loading] starts [true]. *)
Definition initial : Tracking :=
  mkTracking (mkMetrics nullItem nullItem nullItem) 0 None None false false ∅ ∅ true.

Definition withMetrics (t : Tracking) (m : LoadMetrics) : Tracking :=
  mkTracking m (textureLoadsInFlight t) (textureLoadStart t) (modelLoadStart t)
    (modelSizeRecorded t) (hasRenderedFirstFrame t) (recordedTextureAssets t)
    (assetSizeCache t) (loading t).

Definition resetLoadTracking (t : Tracking) : Tracking :=
  mkTracking (mkMetrics nullItem nullItem nullItem) 0 None None false false ∅
    (assetSizeCache t) (loading t).

(** [loading.value = false] (the loading manager's [onLoad] or a failure). *)
Definition finishLoading (t : Tracking) : Tracking :=
  mkTracking (loadMetrics t) (textureLoadsInFlight t) (textureLoadStart t)
    (modelLoadStart t) (modelSizeRecorded t) (hasRenderedFirstFrame t)
    (recordedTextureAssets t) (assetSizeCache t) false.

Definition updateTotalSizeMetric (t : Tracking) : Tracking :=
  let m := loadMetrics t in
  let modelBytes := default 0 (sizeBytes (model m)) in
  let textureBytes := default 0 (sizeBytes (textures m)) in
  let combined := modelBytes + textureBytes in
  withMetrics t
    (mkMetrics (mkItem (durationMs (total m))
                       (if 0 <? combined then Some combined else None))
               (model m) (textures m)).

Definition markFirstFrameRendered (now : Z) (t : Tracking) : Tracking :=
  if hasRenderedFirstFrame t || loading t then t else
  let m := loadMetrics t in
  let t1 :=
    mkTracking (mkMetrics (mkItem (Some now) (sizeBytes (total m)))
                          (model m) (textures m))
      (textureLoadsInFlight t) (textureLoadStart t) (modelLoadStart t)
      (modelSizeRecorded t) true (recordedTextureAssets t)
      (assetSizeCache t) (loading t) in
  updateTotalSizeMetric t1.

Inductive AssetType := asset_model | asset_texture.

(** [readPerformanceTransferSize]: [entries] are the transfer sizes of the
    resource-timing entries recorded under the URL. *)
Definition readPerformanceTransferSize (entries : list Z) : option Z :=
  match last entries with
  | Some transferSize => if 0 <? transferSize then Some transferSize else None
  | None => None
  end.

Section WithEnvironment.

(** [enableSizeProbeFallback] is [false] in the GLB build; the FBX build
    always probes. *)
Variable enableSizeProbeFallback : bool.
Variable toAbsoluteAssetUrl : list N -> list N.

(** The tail of [recordAssetSize], from [if (typeof knownSize === 'number' ...)]. *)
Definition commitAssetSize (type : AssetType) (absoluteUrl : list N)
  (knownSize : option Z) (t : Tracking) : Tracking :=
  match knownSize with
  | None => t
  | Some size =>
    if negb (0 <? size) then t else
    let cache := <[absoluteUrl := size]> (assetSizeCache t) in
    let m := loadMetrics t in
    let t1 :=
      match type with
      | asset_model =>
        mkTracking (mkMetrics (total m) (mkItem (durationMs (model m)) (Some size))
                              (textures m))
          (textureLoadsInFlight t) (textureLoadStart t) (modelLoadStart t)
          true (hasRenderedFirstFrame t) (recordedTextureAssets t) cache (loading t)
      | asset_texture =>
        let existing := default 0 (sizeBytes (textures m)) in
        mkTracking (mkMetrics (total m) (model m)
                              (mkItem (durationMs (textures m)) (Some (existing + size))))
          (textureLoadsInFlight t) (textureLoadStart t) (modelLoadStart t)
          (modelSizeRecorded t) (hasRenderedFirstFrame t)
          ({[absoluteUrl]} ∪ recordedTextureAssets t) cache (loading t)
      end in
    updateTotalSizeMetric t1
  end.

(** [recordAssetSize] up to its only [await]: when neither the size cache
    nor resource timing knows the size and the probe is enabled, the
    function is suspended and [resumeAssetSize] runs its tail later. *)
Definition recordAssetSize (type : AssetType) (path : list N)
  (entries : list Z) (t : Tracking) : Tracking :=
  let absoluteUrl := toAbsoluteAssetUrl path in
  match type with
  | asset_texture =>
    if bool_decide (absoluteUrl ∈ recordedTextureAssets t) then t else
    match JS.nullish (assetSizeCache t !! absoluteUrl)
                     (readPerformanceTransferSize entries) with
    | Some size => commitAssetSize type absoluteUrl (Some size) t
    | None => t
    end
  | asset_model =>
    if modelSizeRecorded t then t else
    match JS.nullish (assetSizeCache t !! absoluteUrl)
                     (readPerformanceTransferSize entries) with
    | Some size => commitAssetSize type absoluteUrl (Some size) t
    | None => t
    end
  end.

(** The continuation after [await fetchContentLength(absoluteUrl)]. *)
Definition resumeAssetSize (type : AssetType) (absoluteUrl : list N)
  (probed : option Z) (t : Tracking) : Tracking :=
  if enableSizeProbeFallback then commitAssetSize type absoluteUrl probed t
  else t.

Definition markModelLoadStart (now : Z) (t : Tracking) : Tracking :=
  let m := loadMetrics t in
  mkTracking (mkMetrics (total m) (mkItem None (sizeBytes (model m))) (textures m))
    (textureLoadsInFlight t) (textureLoadStart t) (Some now)
    (modelSizeRecorded t) (hasRenderedFirstFrame t) (recordedTextureAssets t)
    (assetSizeCache t) (loading t).

Definition markModelLoadEnd (now : Z) (path : list N) (entries : list Z)
  (t : Tracking) : Tracking :=
  let m := loadMetrics t in
  let m1 :=
    match modelLoadStart t with
    | Some start =>
      mkMetrics (total m) (mkItem (Some (now - start)) (sizeBytes (model m)))
                (textures m)
    | None => m
    end in
  let t1 :=
    mkTracking m1 (textureLoadsInFlight t) (textureLoadStart t) None
      (modelSizeRecorded t) (hasRenderedFirstFrame t) (recordedTextureAssets t)
      (assetSizeCache t) (loading t) in
  recordAssetSize asset_model path entries t1.

Definition markTextureLoadStart (now : Z) (t : Tracking) : Tracking :=
  let m := loadMetrics t in
  match textureLoadStart t with
  | None =>
    mkTracking (mkMetrics (total m) (model m) (mkItem None (sizeBytes (textures m))))
      (textureLoadsInFlight t + 1) (Some now) (modelLoadStart t)
      (modelSizeRecorded t) (hasRenderedFirstFrame t) (recordedTextureAssets t)
      (assetSizeCache t) (loading t)
  | Some _ =>
    mkTracking m (textureLoadsInFlight t + 1) (textureLoadStart t) (modelLoadStart t)
      (modelSizeRecorded t) (hasRenderedFirstFrame t) (recordedTextureAssets t)
      (assetSizeCache t) (loading t)
  end.

Definition markTextureLoadEnd (now : Z) (path : list N) (entries : list Z)
  (t : Tracking) : Tracking :=
  let inFlight := Z.max 0 (textureLoadsInFlight t - 1) in
  let m := loadMetrics t in
  let t1 :=
    match textureLoadStart t with
    | Some start =>
      if inFlight =? 0 then
        mkTracking (mkMetrics (total m) (model m)
                              (mkItem (Some (now - start)) (sizeBytes (textures m))))
          inFlight None (modelLoadStart t)
          (modelSizeRecorded t) (hasRenderedFirstFrame t) (recordedTextureAssets t)
          (assetSizeCache t) (loading t)
      else
        mkTracking m inFlight (textureLoadStart t) (modelLoadStart t)
          (modelSizeRecorded t) (hasRenderedFirstFrame t) (recordedTextureAssets t)
          (assetSizeCache t) (loading t)
    | None =>
      mkTracking m inFlight (textureLoadStart t) (modelLoadStart t)
        (modelSizeRecorded t) (hasRenderedFirstFrame t) (recordedTextureAssets t)
        (assetSizeCache t) (loading t)
    end in
  recordAssetSize asset_texture path entries t1.

(** Everything that can touch the telemetry state, as the event loop
    delivers it. *)
Inductive Event :=
| EvReset
| EvFinishLoading
| EvModelLoadStart (now : Z)
| EvModelLoadEnd (now : Z) (path : list N) (entries : list Z)
| EvTextureLoadStart (now : Z)
| EvTextureLoadEnd (now : Z) (path : list N) (entries : list Z)
| EvProbeSettled (type : AssetType) (absoluteUrl : list N) (probed : option Z)
| EvFrame (now : Z).

Definition step (t : Tracking) (e : Event) : Tracking :=
  match e with
  | EvReset => resetLoadTracking t
  | EvFinishLoading => finishLoading t
  | EvModelLoadStart now => markModelLoadStart now t
  | EvModelLoadEnd now path entries => markModelLoadEnd now path entries t
  | EvTextureLoadStart now => markTextureLoadStart now t
  | EvTextureLoadEnd now path entries => markTextureLoadEnd now path entries t
  | EvProbeSettled type url probed => resumeAssetSize type url probed t
  | EvFrame now => markFirstFrameRendered now t
  end.

Definition run (t : Tracking) (es : list Event) : Tracking := fold_left step es t.

End WithEnvironment.

(** The sum the total size is to show: unknown only when both parts are. *)
Definition derivedSize (modelBytes textureBytes : option Z) : option Z :=
  match modelBytes, textureBytes with
  | None, None => None
  | _, _ => Some (default 0 modelBytes + default 0 textureBytes)
  end.

Definition positiveSize (bytes : option Z) : Prop :=
  match bytes with Some v => 0 < v | None => True end.

(** The relation between the three size metrics. *)
Definition sizesConsistent (t : Tracking) : Prop :=
  let m := loadMetrics t in
  sizeBytes (total m) = derivedSize (sizeBytes (model m)) (sizeBytes (textures m))
  /\ positiveSize (sizeBytes (model m))
  /\ positiveSize (sizeBytes (textures m)).

(** The texture timer runs exactly while loads are in flight. *)
Definition timerConsistent (t : Tracking) : Prop :=
  0 <= textureLoadsInFlight t
  /\ (textureLoadStart t = None <-> textureLoadsInFlight t = 0).

(** A group of overlapping texture loads, seen from a moment at which [k]
    loads are in flight: the events that follow keep the counter positive
    until a last completion brings it to zero, and nothing resets the
    tracker in between.  The result is the clock reading of that last
    completion. *)
Fixpoint closesGroup (k : Z) (es : list Event) : option Z :=
  match es with
  | [] => None
  | e :: es' =>
    match e with
    | EvReset => None
    | EvTextureLoadStart _ => closesGroup (k + 1) es'
    | EvTextureLoadEnd now _ _ =>
      if k =? 1
      then match es' with [] => Some now | _ :: _ => None end
      else closesGroup (k - 1) es'
    | _ => closesGroup k es'
    end
  end.

(** [loading.value = false] has been executed somewhere in the trace. *)
Definition loadingFinished (es : list Event) : Prop := In EvFinishLoading es.

(** No frame of the trace that was rendered after loading had finished
    still counts: each one is followed by a later [resetLoadTracking]. *)
Definition noFrameCounted (es : list Event) : Prop :=
  forall before now after,
    es = before ++ EvFrame now :: after ->
    loadingFinished before -> In EvReset after.

(** [now] is the clock reading of the first frame rendered after loading
    has finished, frames before the last reset not counting: loading had
    finished when the frame was rendered, no earlier such frame still
    counted, and nothing has reset the tracker since. *)
Definition firstFrameAfterLoading (es : list Event) (now : Z) : Prop :=
  exists before after,
    es = before ++ EvFrame now :: after
    /\ loadingFinished before
    /\ noFrameCounted before
    /\ ~ In EvReset after.

End Tracker.

(** ** The texture cache and [loadTexture]

    [loadTexture] returns a promise.  Its executor runs at once: it either
    settles the promise from the cache, rejects it, or hands the path to a
    loader and leaves it pending; the loader later calls one of the two
    callbacks.  Each of the three pieces is a transition of the session. *)

Module Session.
Import JS Three Tracker.

Record Session := mkSession {
  tracking : Tracking;
  textureCache : gmap (list N) Texture;
  textureLoader : bool;
  ktx2Loader : bool;
  maxAnisotropy : option N;
  issued : list (list N);
  textureDebug : list Glb.TextureDebugEntry
}.

Inductive Promise :=
| Resolved (tex : Texture)
| Rejected
| Pending.

(** [disposeResources], as far as the session goes. *)
Definition disposeResources (s : Session) : Session :=
  mkSession (tracking s) ∅ (textureLoader s) (ktx2Loader s) None
    (issued s) (textureDebug s).

(** [path.toLowerCase().endsWith('.ktx2')]: besides [K] and [k] only the
    Kelvin sign (U+212A) lowers to [k]. *)
Definition isKtx2 (path : list N) : bool :=
  match rev path with
  | 50 :: x :: t :: k :: 46 :: _ =>
    (lowerUnit x =? 120)%N && (lowerUnit t =? 116)%N
    && ((lowerUnit k =? 107)%N || (k =? 8490)%N)
  | _ => false
  end.

Definition withTracking (s : Session) (t : Tracking) : Session :=
  mkSession t (textureCache s) (textureLoader s) (ktx2Loader s)
    (maxAnisotropy s) (issued s) (textureDebug s).

(** [markTextureLoadStart()] followed by the call
    [loader.load(path, onLoad, undefined, onError)]; [issued] logs the
    paths handed to a loader. *)
Definition dispatch (path : list N) (now : Z) (s : Session) : Session :=
  mkSession (markTextureLoadStart now (tracking s)) (textureCache s)
    (textureLoader s) (ktx2Loader s) (maxAnisotropy s)
    (issued s ++ [path]) (textureDebug s).

End Session.

Module FbxSession.
Import JS Three Tracker Session.

Section WithEnvironment.

Variable toAbsoluteAssetUrl : list N -> list N.

(** The promise executor of [loadTexture(path, srgb)]. *)
Definition loadTexture (path : list N) (srgb : bool) (now : Z) (s : Session)
  : Session * Promise :=
  match textureCache s !! path with
  | Some tex => (s, Resolved tex)
  | None =>
    if negb (textureLoader s) then (s, Rejected)
    else (dispatch path now s, Pending)
  end.

(** The success callback; the second component is the value the promise
    resolves to. *)
Definition onLoad (path : list N) (srgb : bool) (texture : Texture)
  (now : Z) (entries : list Z) (s : Session) : Session * Promise :=
  let tex :=
    mkTexture (image texture)
      (if srgb then SRGBColorSpace else LinearSRGBColorSpace)
      (default 1%N (maxAnisotropy s)) (flipY texture) in
  (mkSession
     (markTextureLoadEnd toAbsoluteAssetUrl now path entries (tracking s))
     (<[path := tex]> (textureCache s))
     (textureLoader s) (ktx2Loader s) (maxAnisotropy s) (issued s)
     (textureDebug s),
   Resolved tex).

(** The error callback. *)
Definition onError (path : list N) (now : Z) (entries : list Z) (s : Session)
  : Session * Promise :=
  (withTracking s
     (markTextureLoadEnd toAbsoluteAssetUrl now path entries (tracking s)),
   Rejected).

End WithEnvironment.

End FbxSession.

Module GlbSession.
Import JS Three Tracker Session.

Section WithEnvironment.

Variable toAbsoluteAssetUrl : list N -> list N.

Definition resolveColorSpace (type : option Glb.TextureColorSpace) : ColorSpace :=
  match type with
  | Some Glb.cs_srgb => SRGBColorSpace
  | Some Glb.cs_linear => LinearSRGBColorSpace
  | _ => NoColorSpace
  end.

(** The promise executor of [loadTexture(path, colorSpace, partKey, variant)]. *)
Definition loadTexture (path : list N) (colorSpace : Glb.TextureColorSpace)
  (partKey variant : option (list N)) (now : Z) (s : Session)
  : Session * Promise :=
  match textureCache s !! path with
  | Some tex => (s, Resolved tex)
  | None =>
    let loader := if isKtx2 path then ktx2Loader s else textureLoader s in
    if negb loader then (s, Rejected)
    else (dispatch path now s, Pending)
  end.

Definition onLoad (path : list N) (colorSpace : Glb.TextureColorSpace)
  (partKey variant : option (list N)) (texture : Texture)
  (now : Z) (entries : list Z) (s : Session) : Session * Promise :=
  let tex :=
    mkTexture (image texture) (resolveColorSpace (Some colorSpace))
      (default 1%N (maxAnisotropy s))
      (if isKtx2 path then flipY texture else false) in
  (mkSession
     (markTextureLoadEnd toAbsoluteAssetUrl now path entries (tracking s))
     (<[path := tex]> (textureCache s))
     (textureLoader s) (ktx2Loader s) (maxAnisotropy s) (issued s)
     (Glb.pushTextureDebug (textureDebug s)
        (Glb.mkDebug path true partKey variant)),
   Resolved tex).

Definition onError (path : list N) (partKey variant : option (list N))
  (now : Z) (entries : list Z) (s : Session) : Session * Promise :=
  (mkSession
     (markTextureLoadEnd toAbsoluteAssetUrl now path entries (tracking s))
     (textureCache s)
     (textureLoader s) (ktx2Loader s) (maxAnisotropy s) (issued s)
     (Glb.pushTextureDebug (textureDebug s)
        (Glb.mkDebug path false partKey variant)),
   Rejected).

End WithEnvironment.

End GlbSession.

(** ** Runs of a session

    The events that reach a session in either build: calls of
    [loadTexture], the two loader callbacks, and telemetry events. *)

Module SessionTrace.
Import JS Three Tracker Session.

Inductive Build := FbxBuild | GlbBuild.

(** The arguments of [loadTexture] besides the path: the FBX build reads
    [srgb], the GLB build the other three. *)
Record Hint := mkHint {
  srgb : bool;
  colorSpace : Glb.TextureColorSpace;
  partKey : option (list N);
  variant : option (list N)
}.

Inductive Event :=
| Call (path : list N) (hint : Hint) (now : Z)
| Loaded (path : list N) (hint : Hint) (texture : Texture) (now : Z)
         (entries : list Z)
| Failed (path : list N) (hint : Hint) (now : Z) (entries : list Z)
| Telemetry (e : Tracker.Event).

Section WithEnvironment.

Variable build : Build.
Variable enableSizeProbeFallback : bool.
Variable toAbsoluteAssetUrl : list N -> list N.

Definition call (path : list N) (hint : Hint) (now : Z) (s : Session)
  : Session * Promise :=
  match build with
  | FbxBuild => FbxSession.loadTexture path (srgb hint) now s
  | GlbBuild =>
    GlbSession.loadTexture path (colorSpace hint) (partKey hint) (variant hint) now s
  end.

Definition loaded (path : list N) (hint : Hint) (texture : Texture) (now : Z)
  (entries : list Z) (s : Session) : Session * Promise :=
  match build with
  | FbxBuild =>
    FbxSession.onLoad toAbsoluteAssetUrl path (srgb hint) texture now entries s
  | GlbBuild =>
    GlbSession.onLoad toAbsoluteAssetUrl path (colorSpace hint) (partKey hint)
      (variant hint) texture now entries s
  end.

Definition failed (path : list N) (hint : Hint) (now : Z) (entries : list Z)
  (s : Session) : Session * Promise :=
  match build with
  | FbxBuild => FbxSession.onError toAbsoluteAssetUrl path now entries s
  | GlbBuild =>
    GlbSession.onError toAbsoluteAssetUrl path (partKey hint) (variant hint)
      now entries s
  end.

Definition step (s : Session) (ev : Event) : Session :=
  match ev with
  | Call path hint now => fst (call path hint now s)
  | Loaded path hint texture now entries =>
    fst (loaded path hint texture now entries s)
  | Failed path hint now entries => fst (failed path hint now entries s)
  | Telemetry e =>
    withTracking s
      (Tracker.step enableSizeProbeFallback toAbsoluteAssetUrl (tracking s) e)
  end.

Definition run (s : Session) (evs : list Event) : Session := fold_left step evs s.

End WithEnvironment.

(** The loader the build would use for [path] is there. *)
Definition loaderReady (build : Build) (path : list N) (s : Session) : bool :=
  match build with
  | FbxBuild => textureLoader s
  | GlbBuild => if isKtx2 path then ktx2Loader s else textureLoader s
  end.



(** How often [path] was handed to a loader. *)
Definition fetches (path : list N) (s : Session) : nat :=
  length (List.filter (fun p => bool_decide (p = path)) (issued s)).

End SessionTrace.

(** ** More of the tracker: what the byte and time metrics add up to *)

Module TrackerSums.
Import Tracker.

Local Open Scope Z_scope.

(** The cached sizes of the texture URLs recorded so far, added up. *)
Definition recordedBytes (t : Tracking) : Z :=
  set_fold (fun url acc => acc + default 0 (assetSizeCache t !! url)) 0
           (recordedTextureAssets t).

(** Every recorded texture URL has a cached size, and the texture size
    shown is the sum of these sizes. *)
Definition sizesRecorded (t : Tracking) : Prop :=
  (forall url, url ∈ recordedTextureAssets t ->
               exists n, assetSizeCache t !! url = Some n /\ 0 < n)
  /\ sizeBytes (textures (loadMetrics t))
     = if decide (recordedTextureAssets t = ∅) then None
       else Some (recordedBytes t).

Definition isReset (e : Event) : bool :=
  match e with EvReset => true | _ => false end.

(** Events that write the model timer. *)
Definition touchesModelTimer (e : Event) : bool :=
  match e with
  | EvReset | EvModelLoadStart _ | EvModelLoadEnd _ _ _ => true
  | _ => false
  end.

End TrackerSums.

(** ** What a built material holds, channel by channel *)

Module Binding.
Import JS Three.

(** The texture the FBX build binds for a channel: none when the manifest
    names no file for it or the load fails. *)
Definition fbxChannelLoad (load : list N -> bool -> option Texture)
  (info : Fbx.ManifestInfo) (c : TextureChannel) (srgb : bool) : option Texture :=
  match Fbx.channel (Fbx.textures info) c with
  | Some fileName =>
    if truthy fileName then load (Fbx.texturePathOf info fileName) srgb else None
  | None => None
  end.

(** The path the FBX build requests for a channel, if any. *)
Definition fbxChannelRequest (info : Fbx.ManifestInfo) (c : TextureChannel)
  : list (list N) :=
  match Fbx.channel (Fbx.textures info) c with
  | Some fileName =>
    if truthy fileName then [Fbx.texturePathOf info fileName] else []
  | None => []
  end.

(** The path the GLB build requests for a channel of a variant. *)
Definition glbTexturePath (variantKey : list N) (c : TextureChannel) : list N :=
  Glb.textureBasePath ++ js "/" ++ Glb.buildSharedTextureFileName variantKey c.

(** The code units [normalizeKey] can produce: [a-z0-9_]. *)
Definition isNormalUnit (c : N) : bool := isLower c || isDigit c || (c =? 95).

End Binding.

(** * Properties *)

Import JS Three.

(** ** String helpers *)

Lemma startsWith_app (s p : list N) :
  startsWith s p = true <-> exists r, s = p ++ r.
Proof.
  revert s; induction p as [|b p IH]; intros s; simpl.
  - split; [intros _; exists s; reflexivity | intros _; destruct s; reflexivity].
  - destruct s as [|a s]; simpl.
    + split; [discriminate | intros [r Hr]; discriminate].
    + rewrite andb_true_iff, N.eqb_eq. split.
      * intros [-> H]. apply IH in H as [r ->]. exists r. reflexivity.
      * intros [r Hr]. injection Hr as -> ->.
        split; [reflexivity | apply IH; exists r; reflexivity].
Qed.

Lemma includes_app (s p : list N) :
  includes s p = true <-> exists l r, s = l ++ p ++ r.
Proof.
  induction s as [|a s IH]; cbn [includes].
  - rewrite orb_false_r. split.
    + intros H. apply startsWith_app in H as [r Hr]. exists [], r. exact Hr.
    + intros [l [r Hr]]. apply startsWith_app.
      destruct l; [exists r; exact Hr | discriminate].
  - rewrite orb_true_iff. split.
    + intros [H | H].
      * apply startsWith_app in H as [r Hr]. exists [], r. exact Hr.
      * apply IH in H as [l [r Hr]]. exists (a :: l), r. simpl. rewrite Hr. reflexivity.
    + intros [l [r Hr]]. destruct l as [|b l]; simpl in Hr.
      * left. apply startsWith_app. exists r. exact Hr.
      * right. injection Hr as -> ->. apply IH. exists l, r. reflexivity.
Qed.

(** [startsWith] adds nothing to the test of a node: a prefix is a substring. *)
Lemma startsWith_includes (s p : list N) :
  startsWith s p = true -> includes s p = true.
Proof. destruct s; simpl; intros ->; reflexivity. Qed.

Lemma matchVariantAt_head (s m : list N) :
  matchVariantAt s = Some m ->
  exists c a t run, m = c :: a :: t :: run /\ lowerUnit c = 109.
Proof.
  destruct s as [|c [|a [|t rest]]]; simpl; try discriminate.
  destruct (lowerUnit c =? 109) eqn:Hc; simpl; [|discriminate].
  destruct (_ && _); [|discriminate].
  intros [= <-]. apply N.eqb_eq in Hc. eauto 8.
Qed.

Lemma matchVariant_head (s m : list N) :
  matchVariant s = Some m ->
  exists c a t run, m = c :: a :: t :: run /\ lowerUnit c = 109.
Proof.
  induction s as [|x s IH]; cbn [matchVariant].
  - simpl. discriminate.
  - destruct (matchVariantAt (x :: s)) eqn:Hat.
    + intros [= <-]. eapply matchVariantAt_head; eassumption.
    + exact IH.
Qed.

Lemma lowerUnit_m_word (c : N) : lowerUnit c = 109 -> isWordChar c = true.
Proof.
  unfold lowerUnit, isWordChar, isAlnum, isLower, isUpper, isDigit.
  intros H.
  destruct (65 <=? c) eqn:H1; [apply N.leb_le in H1 | apply N.leb_gt in H1];
  (destruct (c <=? 90) eqn:H2; [apply N.leb_le in H2 | apply N.leb_gt in H2]);
    simpl in H |- *; subst; try reflexivity.
  assert (c = 77) as -> by lia. reflexivity.
Qed.

(** A token found by [extractVariantName] never normalizes to the empty
    string: its first code unit is a letter. *)
Lemma extractVariantName_truthy (value : option (list N)) (m : list N) :
  extractVariantName value = Some m -> truthy (normalizeKey m) = true.
Proof.
  destruct value as [v|]; simpl; [|discriminate].
  destruct (truthy v); [|discriminate].
  intros H. apply matchVariant_head in H as (c & a & t & run & -> & Hc).
  unfold normalizeKey. simpl. rewrite (lowerUnit_m_word c Hc). reflexivity.
Qed.

(** ** The debug trace of the GLB build *)

Lemma slice_last_length {A} (n : nat) (l : list A) :
  length (Glb.slice_last n l) = Nat.min (length l) n.
Proof. unfold Glb.slice_last. rewrite length_drop. lia. Qed.

Lemma pushTextureDebug_length (l : list Glb.TextureDebugEntry) (e : Glb.TextureDebugEntry) :
  length (Glb.pushTextureDebug l e) = S (Nat.min (length l) 50).
Proof.
  unfold Glb.pushTextureDebug. rewrite length_app, slice_last_length. simpl. lia.
Qed.

Lemma slice_last_app_slice {A} (n m : nat) (l r : list A) :
  (n <= m + length r)%nat ->
  Glb.slice_last n (Glb.slice_last m l ++ r) = Glb.slice_last n (l ++ r).
Proof.
  intros Hn. unfold Glb.slice_last.
  rewrite !length_app, length_drop.
  rewrite <- (drop_app_le l r (length l - m)) by lia.
  rewrite drop_drop. f_equal. lia.
Qed.

(** The entries held after any pushes are the most recent ones: a suffix
    of everything pushed, of at most 51 entries. *)
Lemma pushTextureDebug_recent (es init : list Glb.TextureDebugEntry) :
  (length init <= 51)%nat ->
  fold_left Glb.pushTextureDebug es init = Glb.slice_last 51 (init ++ es).
Proof.
  revert init; induction es as [|e es IH]; intros init Hlen; simpl.
  - rewrite app_nil_r. unfold Glb.slice_last.
    replace (length init - 51)%nat with 0%nat by lia. reflexivity.
  - rewrite IH by (rewrite pushTextureDebug_length; lia).
    unfold Glb.pushTextureDebug. rewrite <- app_assoc.
    apply slice_last_app_slice. simpl. lia.
Qed.

Lemma pushTextureDebug_bound (es : list Glb.TextureDebugEntry) :
  (length (fold_left Glb.pushTextureDebug es []) <= 51)%nat.
Proof.
  rewrite pushTextureDebug_recent by (simpl; lia).
  rewrite slice_last_length. lia.
Qed.

(** C10: after 51 pushes the debug trace holds 51 entries, one more than
    the 50 the trace is meant to be bounded to. *)
Theorem pushTextureDebug_holds_51 :
  length (fold_left Glb.pushTextureDebug
            (repeat (Glb.mkDebug (js "model_MatMetal_ORM.ktx2") true None
                                 (Some (js "MatMetal"))) 51) []) = 51%nat.
Proof. vm_compute. reflexivity. Qed.

(** ** Variant B never lacks a material *)

Lemma resolveVariantKey_token (value : option (list N)) (token : list N) :
  extractVariantName value = Some token ->
  Glb.resolveVariantKey (Some token) = normalizeKey token.
Proof.
  intros H. unfold Glb.resolveVariantKey. simpl.
  rewrite (extractVariantName_truthy _ _ H). reflexivity.
Qed.

Lemma glb_buildMaterialForMesh_some load mesh materialName :
  exists created,
    snd (Glb.buildMaterialForMesh load mesh materialName) = Some created.
Proof. unfold Glb.buildMaterialForMesh. simpl. eauto. Qed.

(** C9: in the GLB build [buildMaterialForMesh] returns a material for
    every mesh and material name; the variant key is the normalized token
    when one is found and the default ['matmetal'] otherwise; the gray
    fallback branch of [applyMaterialsToMesh] never runs. *)
Theorem glb_material_never_null
  (load : list N -> Glb.TextureColorSpace -> option (list N) -> option (list N)
          -> option Texture)
  (mesh : Mesh) (materialName : option (list N)) :
  (exists created,
      snd (Glb.buildMaterialForMesh load mesh materialName) = Some created)
  /\ Glb.variantKeyOf mesh materialName =
     match Glb.variantRawOf mesh materialName with
     | Some token => normalizeKey token
     | None => js "matmetal"
     end
  /\ snd (Glb.applyMaterialsToMesh load mesh) = false.
Proof.
  split; [apply glb_buildMaterialForMesh_some|]. split.
  - unfold Glb.variantKeyOf, Glb.variantRawOf, nullish.
    destruct (extractVariantName materialName) as [t1|] eqn:H1.
    { eapply resolveVariantKey_token; eassumption. }
    destruct (extractVariantName (Some (name (node mesh)))) as [t2|] eqn:H2.
    { eapply resolveVariantKey_token; eassumption. }
    destruct (extractVariantName (Glb.findPartKeyFromObject _ _)) as [t3|] eqn:H3.
    { eapply resolveVariantKey_token; eassumption. }
    reflexivity.
  - unfold Glb.applyMaterialsToMesh.
    destruct (material mesh) as [m|ms]; [|reflexivity].
    destruct (glb_buildMaterialForMesh_some load mesh (Some (Three.materialName m)))
      as [created ->].
    reflexivity.
Qed.

(** ** Variant A: no manifest entry *)

Ltac bool_to_prop H :=
  repeat first
    [ rewrite orb_true_iff in H | rewrite andb_true_iff in H
    | rewrite N.leb_le in H | rewrite N.eqb_eq in H ].

Lemma whiteSpace_not_word (c : N) : isWhiteSpace c = true -> isWordChar c = false.
Proof.
  intros Hws. destruct (isWordChar c) eqn:Hw; [exfalso | reflexivity].
  unfold isWhiteSpace in Hws.
  unfold isWordChar, isAlnum, isLower, isUpper, isDigit in Hw.
  bool_to_prop Hws. bool_to_prop Hw. lia.
Qed.

Lemma filter_word_trimStart (s : list N) :
  List.filter isWordChar (trimStart s) = List.filter isWordChar s.
Proof.
  induction s as [|c s IH]; simpl; [reflexivity|].
  destruct (isWhiteSpace c) eqn:Hws; [|reflexivity].
  rewrite IH, (whiteSpace_not_word c Hws). reflexivity.
Qed.

Lemma filter_word_rev (s : list N) :
  List.filter isWordChar (rev s) = rev (List.filter isWordChar s).
Proof.
  induction s as [|c s IH]; simpl; [reflexivity|].
  rewrite List.filter_app, IH. simpl.
  destruct (isWordChar c); simpl; [reflexivity | apply app_nil_r].
Qed.

(** Trimming does not change the normalized name. *)
Lemma normalizeKey_trim (s : list N) : normalizeKey (trim s) = normalizeKey s.
Proof.
  unfold normalizeKey, trim, trimEnd. f_equal.
  rewrite filter_word_rev, filter_word_trimStart, filter_word_rev, rev_involutive.
  apply filter_word_trimStart.
Qed.

Lemma find_all_false {A} (f : A -> bool) (l : list A) :
  (forall x, In x l -> f x = false) -> find f l = None.
Proof.
  induction l as [|a l IH]; simpl; intros H; [reflexivity|].
  rewrite (H a) by (left; reflexivity). apply IH. intros x Hx. apply H. right. exact Hx.
Qed.

Section FbxResolver.

Variable manifestData : Fbx.TextureManifest.

Lemma nodeMatches_includes (nn : list N) (m : Fbx.PartMeta) :
  Fbx.nodeMatches nn m = includes nn (Fbx.normalized m).
Proof.
  unfold Fbx.nodeMatches.
  destruct (startsWith nn (Fbx.normalized m)) eqn:H; [|reflexivity].
  symmetry. apply startsWith_includes. exact H.
Qed.

Lemma in_manifestPartMeta (m : Fbx.PartMeta) :
  In m (Fbx.manifestPartMeta manifestData) <->
  exists key, In key (Fbx.keys manifestData)
              /\ m = Fbx.mkPartMeta key (normalizeKey key).
Proof.
  unfold Fbx.manifestPartMeta. rewrite in_map_iff.
  split; intros [key [H1 H2]]; exists key; auto.
Qed.

(** A node none of the keys occurs in gives no match. *)
Lemma matchAtNode_none (n : Object3D) :
  (forall key, In key (Fbx.keys manifestData) ->
               includes (normalizeKey (name n)) (normalizeKey key) = false) ->
  Fbx.matchAtNode manifestData n = None.
Proof.
  intros H. unfold Fbx.matchAtNode.
  destruct (truthy (trim (name n))); [|reflexivity].
  apply find_all_false. intros m Hm.
  apply in_manifestPartMeta in Hm as [key [Hkey ->]].
  rewrite nodeMatches_includes, normalizeKey_trim. simpl. apply H. exact Hkey.
Qed.

Lemma findPartKeyFromNode_none (o : Object3D) :
  (forall n key, In n (chain o) -> In key (Fbx.keys manifestData) ->
                 includes (normalizeKey (name n)) (normalizeKey key) = false) ->
  Fbx.findPartKeyFromNode manifestData o = None.
Proof.
  induction o as [nm|nm p IH]; intros H; cbn [Fbx.findPartKeyFromNode].
  - rewrite matchAtNode_none; [reflexivity|].
    intros key. apply H. left. reflexivity.
  - rewrite matchAtNode_none.
    + apply IH. intros n key Hn. apply H. right. exact Hn.
    + intros key. apply H. left. reflexivity.
Qed.

End FbxResolver.

(** C7, as stated, fails: a mesh that matches no manifest key and already
    carries a [MeshStandardMaterial] keeps that material; it is not
    replaced by the gray default. *)
Lemma fbx_unmatched_standard_material_kept :
  let manifestData : Fbx.TextureManifest :=
    [(js "Gear", [(js "matMetal", Fbx.mkTextures (Some (js "a.png")) None None)])] in
  let steel := Standard (js "steel") (newStandard 16777215 0%Q 1%Q 1%Q) in
  let mesh := mkMesh (Child (js "Bolt") (Orphan (js "Scene"))) (Single steel)
                     None false false in
  (forall n key, In n (chain (node mesh)) -> In key (Fbx.keys manifestData) ->
                 includes (normalizeKey (name n)) (normalizeKey key) = false)
  /\ snd (Fbx.buildMaterialForMesh manifestData (fun _ _ => None) mesh
                                   (Some (js "steel"))) = None
  /\ material (Fbx.applyMaterialsToMesh manifestData (fun _ _ => None) mesh)
     <> Single flatDefault.
Proof.
  simpl. split; [|split].
  - intros n key [<- | [<- | []]] [<- | []]; vm_compute; reflexivity.
  - vm_compute. reflexivity.
  - vm_compute. intros H. discriminate H.
Qed.

(** C7, amended: when no own or ancestor name contains a manifest key,
    [buildMaterialForMesh] returns null; a single material that is not a
    [MeshStandardMaterial] is replaced by the flat default (gray 0x777777,
    metalness 0.5, roughness 0.6), while a single [MeshStandardMaterial]
    and every entry of a material array are kept. *)
Theorem fbx_unmatched_falls_back
  (manifestData : Fbx.TextureManifest)
  (load : list N -> bool -> option Texture) (mesh : Mesh) :
  (forall n key, In n (chain (node mesh)) -> In key (Fbx.keys manifestData) ->
                 includes (normalizeKey (name n)) (normalizeKey key) = false) ->
  (forall materialName,
      Fbx.resolveManifestInfo manifestData mesh materialName = None
      /\ Fbx.buildMaterialForMesh manifestData load mesh materialName = ([], None))
  /\ material (Fbx.applyMaterialsToMesh manifestData load mesh) =
     match material mesh with
     | Single m => if isStandard m then Single m else Single flatDefault
     | Multi ms => Multi ms
     end
  /\ exists p, flatDefault = Standard [] p
               /\ color p = 7829367 /\ metalness p = 0.5%Q /\ roughness p = 0.6%Q.
Proof.
  intros H.
  assert (Hres : forall materialName,
             Fbx.resolveManifestInfo manifestData mesh materialName = None).
  { intros materialName. unfold Fbx.resolveManifestInfo, Fbx.findPartKeyFromObject.
    rewrite findPartKeyFromNode_none by exact H. reflexivity. }
  assert (Hbuild : forall materialName,
             Fbx.buildMaterialForMesh manifestData load mesh materialName = ([], None)).
  { intros materialName. unfold Fbx.buildMaterialForMesh. rewrite Hres. reflexivity. }
  split; [intros materialName; split; [apply Hres | apply Hbuild]|]. split.
  - unfold Fbx.applyMaterialsToMesh. cbn [material].
    destruct (material mesh) as [m|ms].
    + rewrite Hbuild. simpl. destruct (isStandard m); reflexivity.
    + f_equal. rewrite <- (map_id ms) at 2. apply map_ext. intros existing.
      rewrite Hbuild. reflexivity.
  - eexists. repeat split.
Qed.

Lemma fbx_unmatched_falls_back_witness :
  let manifestData : Fbx.TextureManifest :=
    [(js "Gear", [(js "matMetal", Fbx.mkTextures (Some (js "a.png")) None None)])] in
  let mesh := mkMesh (Child (js "Bolt") (Orphan (js "Scene")))
                     (Single (OtherMaterial (js "phong"))) None false false in
  material (Fbx.applyMaterialsToMesh manifestData (fun _ _ => None) mesh)
  = Single flatDefault.
Proof.
  intros manifestData mesh.
  refine (proj1 (proj2 (fbx_unmatched_falls_back manifestData (fun _ _ => None) mesh _))).
  intros n key [<- | [<- | []]] [<- | []]; vm_compute; reflexivity.
Defined.

(** ** Variant A: which part key the walk returns *)

Lemma find_split {A} (f : A -> bool) (l : list A) (x : A) :
  find f l = Some x ->
  exists before after,
    l = before ++ x :: after /\ f x = true
    /\ forall y, In y before -> f y = false.
Proof.
  induction l as [|a l IH]; simpl; [discriminate|].
  destruct (f a) eqn:Ha.
  - intros [= ->]. exists [], l. repeat split; [exact Ha | intros y []].
  - intros H. destruct (IH H) as (before & after & -> & Hx & Hb).
    exists (a :: before), after. repeat split; [exact Hx|].
    intros y [<- | Hy]; [exact Ha | apply Hb, Hy].
Qed.

Section FbxFirstHit.

Variable manifestData : Fbx.TextureManifest.

(** A key occurs in the name of a node the loop does not skip. *)
Local Abbreviation occurs key n :=
  (truthy (trim (name n)) && includes (normalizeKey (name n)) (normalizeKey key)).

Lemma matchAtNode_some (n : Object3D) (m : Fbx.PartMeta) :
  Fbx.matchAtNode manifestData n = Some m ->
  exists before after,
    Fbx.keys manifestData = before ++ Fbx.original m :: after
    /\ occurs (Fbx.original m) n = true
    /\ forall key, In key before -> occurs key n = false.
Proof.
  unfold Fbx.matchAtNode. destruct (truthy (trim (name n))) eqn:Ht; [|discriminate].
  intros H. apply find_split in H as (before & after & Hsplit & Hm & Hbefore).
  unfold Fbx.manifestPartMeta in Hsplit.
  apply map_eq_app in Hsplit as (kb & krest & Hkeys & <- & Hrest).
  apply map_eq_cons in Hrest as (k & ka & -> & <- & <-).
  exists kb, ka. split; [exact Hkeys|]. split.
  - rewrite nodeMatches_includes, normalizeKey_trim in Hm.
    cbn [Fbx.original andb]. exact Hm.
  - intros key Hkey.
    specialize (Hbefore (Fbx.mkPartMeta key (normalizeKey key))).
    rewrite nodeMatches_includes, normalizeKey_trim in Hbefore.
    cbn [andb]. apply Hbefore.
    apply (in_map (fun key => Fbx.mkPartMeta key (normalizeKey key))), Hkey.
Qed.

Lemma matchAtNode_none_inv (n : Object3D) :
  Fbx.matchAtNode manifestData n = None ->
  forall key, In key (Fbx.keys manifestData) -> occurs key n = false.
Proof.
  unfold Fbx.matchAtNode. intros H key Hkey.
  destruct (truthy (trim (name n))) eqn:Ht; [|reflexivity].
  pose proof (find_none _ _ H (Fbx.mkPartMeta key (normalizeKey key))) as Hn.
  rewrite nodeMatches_includes, normalizeKey_trim in Hn.
  apply Hn. unfold Fbx.manifestPartMeta.
  apply (in_map (fun key => Fbx.mkPartMeta key (normalizeKey key))), Hkey.
Qed.

(** What the walk returns: the first key, in manifest order, that occurs
    in the closest node in which any key occurs. *)
Lemma findPartKeyFromNode_spec (o : Object3D) :
  match Fbx.findPartKeyFromNode manifestData o with
  | Some K' =>
    exists closer n' farther before after,
      chain o = closer ++ n' :: farther
      /\ Fbx.keys manifestData = before ++ K' :: after
      /\ occurs K' n' = true
      /\ (forall n key, In n closer -> In key (Fbx.keys manifestData) ->
                        occurs key n = false)
      /\ (forall key, In key before -> occurs key n' = false)
  | None =>
    forall n key, In n (chain o) -> In key (Fbx.keys manifestData) ->
                  occurs key n = false
  end.
Proof.
  induction o as [nm|nm p IH]; cbn [Fbx.findPartKeyFromNode chain].
  - destruct (Fbx.matchAtNode manifestData (Orphan nm)) as [m|] eqn:Hm.
    + apply matchAtNode_some in Hm as (before & after & Hk & Ho & Hb).
      exists [], (Orphan nm), [], before, after.
      repeat split; try assumption. intros n key [].
    + intros n key [<- | []]. apply matchAtNode_none_inv, Hm.
  - destruct (Fbx.matchAtNode manifestData (Child nm p)) as [m|] eqn:Hm.
    + apply matchAtNode_some in Hm as (before & after & Hk & Ho & Hb).
      exists [], (Child nm p), (chain p), before, after.
      repeat split; try assumption. intros n key [].
    + pose proof (matchAtNode_none_inv _ Hm) as Hhere.
      destruct (Fbx.findPartKeyFromNode manifestData p) as [K'|].
      * destruct IH as (closer & n' & farther & before & after
                        & Hc & Hk & Ho & Hcl & Hb).
        exists (Child nm p :: closer), n', farther, before, after.
        repeat split; try assumption.
        -- simpl. rewrite Hc. reflexivity.
        -- intros n key [<- | Hn] Hkey; [apply Hhere, Hkey | apply Hcl; assumption].
      * intros n key [<- | Hn] Hkey; [apply Hhere, Hkey | apply IH; assumption].
Qed.

End FbxFirstHit.

(** C1, as stated, fails: with the keys [Gear] and [Gear_Housing] declared
    in this order, a mesh named [Gear_Housing_01] contains the normalized
    [Gear_Housing], yet the resolver returns [Gear]; and a key that
    normalizes to the empty string is contained in a blank name, which the
    walk skips. *)
Lemma findPartKeyFromObject_not_every_contained_key :
  let tx := Fbx.mkTextures (Some (js "a.png")) None None in
  (let manifestData : Fbx.TextureManifest :=
     [(js "Gear", [(js "matMetal", tx)]); (js "Gear_Housing", [(js "matMetal", tx)])] in
   let K := js "Gear_Housing" in
   let mesh := Orphan (js "Gear_Housing_01") in
   In K (Fbx.keys manifestData)
   /\ includes (normalizeKey (name mesh)) (normalizeKey K) = true
   /\ Fbx.findPartKeyFromObject manifestData (Some mesh) = Some (js "Gear")
   /\ Fbx.findPartKeyFromObject manifestData (Some mesh) <> Some K)
  /\
  (let manifestData : Fbx.TextureManifest := [(js "#", [(js "matMetal", tx)])] in
   let K := js "#" in
   let mesh := Orphan (js " ") in
   In K (Fbx.keys manifestData)
   /\ includes (normalizeKey (name mesh)) (normalizeKey K) = true
   /\ Fbx.findPartKeyFromObject manifestData (Some mesh) = None).
Proof.
  cbv zeta. split.
  - split; [right; left; reflexivity|].
    split; [vm_compute; reflexivity|].
    split; [vm_compute; reflexivity|].
    vm_compute. intros H. discriminate H.
  - split; [left; reflexivity|].
    split; vm_compute; reflexivity.
Qed.

(** C1, amended: when the normalized key K occurs in the own or an
    ancestor's name (a name that is not blank), the resolver returns a
    manifest key: the first one, in manifest order, that occurs in the
    closest node in which any key occurs.  It is K itself when K is the
    only key occurring in a name of the chain. *)
Theorem findPartKeyFromObject_first_hit
  (manifestData : Fbx.TextureManifest) (K : list N) (o : Object3D) :
  In K (Fbx.keys manifestData) ->
  (exists n, In n (chain o)
             /\ truthy (trim (name n)) = true
             /\ includes (normalizeKey (name n)) (normalizeKey K) = true) ->
  exists K' closer n' farther before after,
    Fbx.findPartKeyFromObject manifestData (Some o) = Some K'
    /\ chain o = closer ++ n' :: farther
    /\ Fbx.keys manifestData = before ++ K' :: after
    /\ truthy (trim (name n')) = true
    /\ includes (normalizeKey (name n')) (normalizeKey K') = true
    /\ (forall n key, In n closer -> In key (Fbx.keys manifestData) ->
                      truthy (trim (name n)) = true ->
                      includes (normalizeKey (name n)) (normalizeKey key) = false)
    /\ (forall key, In key before ->
                    includes (normalizeKey (name n')) (normalizeKey key) = false)
    /\ ((forall n key, In n (chain o) -> In key (Fbx.keys manifestData) ->
                       includes (normalizeKey (name n)) (normalizeKey key) = true ->
                       key = K) ->
        K' = K).
Proof.
  intros HK (n & Hn & Ht & Hinc).
  pose proof (findPartKeyFromNode_spec manifestData o) as Hspec.
  unfold Fbx.findPartKeyFromObject.
  destruct (Fbx.findPartKeyFromNode manifestData o) as [K'|].
  - destruct Hspec as (closer & n' & farther & before & after
                       & Hc & Hk & Ho & Hcl & Hb).
    apply andb_true_iff in Ho as [Ht' Hinc'].
    exists K', closer, n', farther, before, after.
    repeat split; try assumption.
    + intros m key Hm Hkey Htm. specialize (Hcl m key Hm Hkey).
      rewrite Htm in Hcl. exact Hcl.
    + intros key Hkey. specialize (Hb key Hkey). rewrite Ht' in Hb. exact Hb.
    + intros Honly. apply (Honly n' K'); [| |exact Hinc'].
      * rewrite Hc. apply in_or_app. right. left. reflexivity.
      * rewrite Hk. apply in_or_app. right. left. reflexivity.
  - exfalso. specialize (Hspec n K Hn HK). rewrite Ht, Hinc in Hspec. discriminate.
Qed.

Lemma findPartKeyFromObject_first_hit_witness :
  Fbx.findPartKeyFromObject
    [(js "Gear_Housing",
      [(js "matMetal", Fbx.mkTextures (Some (js "a.png")) None None)])]
    (Some (Child (js "mesh_01") (Child (js "Gear_Housing.001") (Orphan (js "Scene")))))
  = Some (js "Gear_Housing").
Proof.
  destruct (findPartKeyFromObject_first_hit
              [(js "Gear_Housing",
                [(js "matMetal", Fbx.mkTextures (Some (js "a.png")) None None)])]
              (js "Gear_Housing")
              (Child (js "mesh_01") (Child (js "Gear_Housing.001") (Orphan (js "Scene")))))
    as (K' & closer & n' & farther & before & after
        & H & _ & _ & _ & _ & _ & _ & Honly).
  - left. reflexivity.
  - exists (Child (js "Gear_Housing.001") (Orphan (js "Scene"))).
    split; [right; left; reflexivity|]. split; vm_compute; reflexivity.
  - rewrite H. f_equal. apply Honly.
    intros n key _ [<- | []] _. reflexivity.
Defined.

(** ** The variant token *)

Lemma lowerUnit_eqb (c x : N) :
  97 <= x <= 122 ->
  (lowerUnit c =? x) = (c =? x) || (c =? x - 32).
Proof.
  intros Hx. unfold lowerUnit, isUpper.
  destruct (N.leb_spec 65 c), (N.leb_spec c 90); simpl;
    repeat match goal with
           | |- context [?a =? ?b] => destruct (N.eqb_spec a b)
           end; simpl; try reflexivity; lia.
Qed.

Lemma takeWhile_split (f : N -> bool) (s : list N) :
  exists rest,
    s = takeWhile f s ++ rest
    /\ forallb f (takeWhile f s) = true
    /\ match rest with [] => True | c :: _ => f c = false end.
Proof.
  induction s as [|c s (rest & Hs & Hall & Hstop)]; simpl.
  - exists []. repeat split.
  - destruct (f c) eqn:Hc.
    + exists rest. simpl. rewrite Hc, Hall. repeat split; [|exact Hstop].
      f_equal. exact Hs.
    + exists (c :: s). repeat split. exact Hc.
Qed.

Lemma takeWhile_app_stop (f : N -> bool) (run post : list N) :
  forallb f run = true ->
  match post with [] => True | c :: _ => f c = false end ->
  takeWhile f (run ++ post) = run.
Proof.
  intros Hall Hstop. induction run as [|c run IH]; simpl in *.
  - destruct post as [|c post]; simpl; [reflexivity | rewrite Hstop; reflexivity].
  - apply andb_true_iff in Hall as [-> Hall]. rewrite IH by exact Hall. reflexivity.
Qed.

(** The head test of [matchVariantAt] is the head test of a token. *)
Lemma matHead_eqb (m a t : N) :
  (lowerUnit m =? 109) && (lowerUnit a =? 97) && (lowerUnit t =? 116)
  = ((m =? 109) || (m =? 77)) && ((a =? 97) || (a =? 65))
    && ((t =? 116) || (t =? 84)).
Proof. rewrite !lowerUnit_eqb by lia. reflexivity. Qed.

Lemma matchVariantAt_sound (s tok : list N) :
  matchVariantAt s = Some tok ->
  exists post,
    s = tok ++ post /\ isVariantToken tok = true
    /\ match post with [] => True | c :: _ => isAlnum c = false end.
Proof.
  destruct s as [|m [|a [|t rest]]]; simpl; try discriminate.
  rewrite matHead_eqb.
  destruct (takeWhile_split isAlnum rest) as (post & Hrest & Hall & Hstop).
  destruct (((m =? 109) || (m =? 77)) && ((a =? 97) || (a =? 65))
            && ((t =? 116) || (t =? 84))) eqn:Hhead; simpl; [|discriminate].
  destruct (truthy (takeWhile isAlnum rest)) eqn:Hrun; [|discriminate].
  intros [= <-]. exists post. simpl. rewrite Hhead, Hrun, Hall.
  repeat split; [|exact Hstop]. do 3 f_equal. exact Hrest.
Qed.

Lemma matchVariantAt_complete (tok post : list N) :
  isVariantToken tok = true ->
  match post with [] => True | c :: _ => isAlnum c = false end ->
  matchVariantAt (tok ++ post) = Some tok.
Proof.
  destruct tok as [|m [|a [|t run]]]; simpl; try discriminate.
  intros Htok Hstop.
  apply andb_true_iff in Htok as [Htok Hall].
  apply andb_true_iff in Htok as [Hhead Hrun].
  rewrite matHead_eqb, Hhead, (takeWhile_app_stop _ _ _ Hall Hstop), Hrun.
  reflexivity.
Qed.

(** A token at the start of [s], even one that could be extended, makes
    the attempt at this position succeed. *)
Lemma matchVariantAt_token (tok post : list N) :
  isVariantToken tok = true -> matchVariantAt (tok ++ post) <> None.
Proof.
  destruct tok as [|m [|a [|t [|c run]]]]; simpl; try discriminate;
    try (rewrite !andb_false_r; discriminate).
  intros Htok.
  apply andb_true_iff in Htok as [Htok Hall].
  apply andb_true_iff in Hall as [Hc _].
  apply andb_true_iff in Htok as [Hhead _].
  rewrite matHead_eqb, Hhead, Hc. simpl. discriminate.
Qed.

Lemma matchVariant_cons (c : N) (s : list N) :
  matchVariant (c :: s) =
  match matchVariantAt (c :: s) with
  | Some m => Some m
  | None => matchVariant s
  end.
Proof. reflexivity. Qed.

(** The search returns the leftmost token that cannot be extended. *)
Lemma matchVariant_leftmost (value tok : list N) :
  LeftmostMatch value tok -> matchVariant value = Some tok.
Proof.
  intros (pre & post & -> & Htok & Hstop & Hleft).
  induction pre as [|c pre IH].
  - simpl app. destruct (tok ++ post) as [|c s] eqn:E.
    + destruct tok; discriminate.
    + rewrite matchVariant_cons, <- E, (matchVariantAt_complete _ _ Htok Hstop).
      reflexivity.
  - simpl app. rewrite matchVariant_cons.
    destruct (matchVariantAt (c :: pre ++ tok ++ post)) as [m|] eqn:Hat.
    + exfalso. apply matchVariantAt_sound in Hat as (post1 & Hs & Hm & _).
      specialize (Hleft [] m post1 Hs Hm). simpl in Hleft. lia.
    + apply IH. intros pre1 tok1 post1 Hs Htok1.
      specialize (Hleft (c :: pre1) tok1 post1).
      simpl in Hleft. rewrite Hs in Hleft. specialize (Hleft eq_refl Htok1). lia.
Qed.

Lemma matchVariant_NoMatch (value : list N) :
  NoMatch value <-> matchVariant value = None.
Proof.
  split.
  - induction value as [|c s IH]; intros Hno; [reflexivity|].
    rewrite matchVariant_cons.
    destruct (matchVariantAt (c :: s)) as [m|] eqn:Hat.
    + apply matchVariantAt_sound in Hat as (post & Hs & Hm & _).
      rewrite (Hno [] m post Hs) in Hm. discriminate.
    + apply IH. intros pre tok post Hs. apply (Hno (c :: pre) tok post).
      rewrite Hs. reflexivity.
  - intros Hnone pre tok post ->.
    destruct (isVariantToken tok) eqn:Htok; [exfalso | reflexivity].
    induction pre as [|c pre IH].
    + cbn [app] in Hnone. destruct (tok ++ post) as [|c s] eqn:E.
      * destruct tok; discriminate.
      * rewrite matchVariant_cons in Hnone.
        pose proof (matchVariantAt_token tok post Htok) as Hat. rewrite E in Hat.
        destruct (matchVariantAt (c :: s)); [discriminate | contradiction].
    + cbn [app] in Hnone. rewrite matchVariant_cons in Hnone.
      destruct (matchVariantAt (c :: pre ++ tok ++ post)); [discriminate|].
      apply IH, Hnone.
Qed.



(** ** Variant A: which variant is selected *)









(** ** Variant A: the Gear_Housing scenario *)



(** ** Telemetry *)

Section Telemetry.
Import Tracker.

Variable enableSizeProbeFallback : bool.
Variable toAbsoluteAssetUrl : list N -> list N.

Local Open Scope Z_scope.

Local Abbreviation step := (Tracker.step enableSizeProbeFallback toAbsoluteAssetUrl).
Local Abbreviation run := (Tracker.run enableSizeProbeFallback toAbsoluteAssetUrl).

(** What the texture timer consists of. *)
Local Abbreviation timer t :=
  (textureLoadsInFlight t, textureLoadStart t,
   durationMs (textures (loadMetrics t))).

Lemma updateTotalSizeMetric_timer t : timer (updateTotalSizeMetric t) = timer t.
Proof. reflexivity. Qed.

Lemma commitAssetSize_timer type url size t :
  timer (commitAssetSize type url size t) = timer t.
Proof.
  unfold commitAssetSize. destruct size as [size|]; [|reflexivity].
  destruct (negb (0 <? size)); [reflexivity|]. destruct type; reflexivity.
Qed.

Lemma recordAssetSize_timer type path entries t :
  timer (recordAssetSize toAbsoluteAssetUrl type path entries t) = timer t.
Proof.
  unfold recordAssetSize.
  destruct type.
  - destruct (modelSizeRecorded t); [reflexivity|].
    destruct (JS.nullish _ _); [apply commitAssetSize_timer | reflexivity].
  - destruct (bool_decide _); [reflexivity|].
    destruct (JS.nullish _ _); [apply commitAssetSize_timer | reflexivity].
Qed.

(** Events other than texture starts, texture completions and resets
    leave the texture timer alone. *)
Lemma step_other_timer t e :
  match e with
  | EvReset | EvTextureLoadStart _ | EvTextureLoadEnd _ _ _ => True
  | _ => timer (step t e) = timer t
  end.
Proof.
  destruct e; try exact I; cbn [Tracker.step].
  - reflexivity.
  - reflexivity.
  - unfold markModelLoadEnd. rewrite recordAssetSize_timer.
    destruct (modelLoadStart t); reflexivity.
  - unfold resumeAssetSize. destruct enableSizeProbeFallback;
      [apply commitAssetSize_timer | reflexivity].
  - unfold markFirstFrameRendered.
    destruct (hasRenderedFirstFrame t || loading t); reflexivity.
Qed.

Lemma markTextureLoadStart_running now t k start :
  timer t = (k, Some start, None) ->
  timer (markTextureLoadStart now t) = (k + 1, Some start, None).
Proof.
  intros [= Hk Hs Hd]. unfold markTextureLoadStart. rewrite Hs. simpl.
  rewrite Hk, Hd. reflexivity.
Qed.

Lemma markTextureLoadEnd_running now path entries t k start :
  timer t = (k, Some start, None) -> k <> 1 -> 1 <= k ->
  timer (markTextureLoadEnd toAbsoluteAssetUrl now path entries t)
  = (k - 1, Some start, None).
Proof.
  intros [= Hk Hs Hd] Hne Hge. unfold markTextureLoadEnd.
  rewrite recordAssetSize_timer, Hs.
  replace (Z.max 0 (textureLoadsInFlight t - 1) =? 0) with false
    by (symmetry; apply Z.eqb_neq; lia).
  simpl. rewrite Hd, Hk. f_equal. f_equal. lia.
Qed.

Lemma markTextureLoadEnd_last now path entries t start :
  timer t = (1, Some start, None) ->
  timer (markTextureLoadEnd toAbsoluteAssetUrl now path entries t)
  = (0, None, Some (now - start)).
Proof.
  intros [= Hk Hs Hd]. unfold markTextureLoadEnd.
  rewrite recordAssetSize_timer, Hs, Hk. reflexivity.
Qed.

(** The group seen from its middle: [k] loads in flight since [start]. *)
Lemma closesGroup_run (es : list Event) :
  forall t k start finish,
    timer t = (k, Some start, None) -> 1 <= k ->
    closesGroup k es = Some finish ->
    timer (run t es) = (0, None, Some (finish - start))
    /\ forall n, (n < length es)%nat ->
                 durationMs (textures (loadMetrics (run t (take n es)))) = None.
Proof.
  induction es as [|e es IH]; intros t k start finish Ht Hk Hg; [discriminate|].
  assert (Hhere : durationMs (textures (loadMetrics t)) = None)
    by (injection Ht as _ _ ->; reflexivity).
  assert (Hnext : forall t', timer t' = timer t ->
            closesGroup k es = Some finish ->
            timer (run t' es) = (0, None, Some (finish - start))
            /\ forall n, (n < length es)%nat ->
                 durationMs (textures (loadMetrics (run t' (take n es)))) = None).
  { intros t' Ht' Hg'. apply (IH t' k start finish); [rewrite Ht'|..]; assumption. }
  assert (Hcons : forall P : Tracking -> Prop,
            P t ->
            (forall n, (n < length es)%nat -> P (run (step t e) (take n es))) ->
            forall n, (n < length (e :: es))%nat -> P (run t (take n (e :: es)))).
  { intros P H0 HS [|n] Hn; [exact H0|]. apply HS. simpl in Hn. lia. }
  pose proof (step_other_timer t e) as Hother.
  destruct e; cbn [closesGroup] in Hg; try discriminate;
    try (destruct (Hnext _ Hother Hg) as [H1 H2]; split;
         [exact H1 | apply (Hcons (fun x => durationMs (textures (loadMetrics x)) = None));
                     assumption]).
  - destruct (IH (step t (EvTextureLoadStart now)) (k + 1) start finish) as [H1 H2];
      [apply markTextureLoadStart_running; exact Ht | lia | exact Hg |].
    split; [exact H1|].
    apply (Hcons (fun x => durationMs (textures (loadMetrics x)) = None)); assumption.
  - destruct (k =? 1) eqn:E.
    + apply Z.eqb_eq in E. subst k. destruct es; [|discriminate].
      injection Hg as <-. split.
      * cbn. apply markTextureLoadEnd_last. exact Ht.
      * intros [|n] Hn; [exact Hhere | simpl in Hn; lia].
    + apply Z.eqb_neq in E.
      destruct (IH (step t (EvTextureLoadEnd now path entries)) (k - 1) start finish)
        as [H1 H2];
        [apply markTextureLoadEnd_running; assumption | lia | exact Hg |].
      split; [exact H1|].
      apply (Hcons (fun x => durationMs (textures (loadMetrics x)) = None)); assumption.
Qed.

Lemma step_timerConsistent t e : timerConsistent t -> timerConsistent (step t e).
Proof.
  unfold timerConsistent. intros [Hge Hiff].
  pose proof (step_other_timer t e) as Hother.
  destruct e;
    try (pose proof (f_equal (fun x => fst (fst x)) Hother) as H1;
         pose proof (f_equal (fun x => snd (fst x)) Hother) as H2;
         cbn [fst snd] in H1, H2; rewrite H1, H2; split; assumption);
    clear Hother; cbn [Tracker.step].
  - simpl. split; [lia | split; reflexivity].
  - unfold markTextureLoadStart.
    destruct (textureLoadStart t) eqn:Hs; simpl; rewrite ?Hs.
    + split; [lia|]. split; [intros H; discriminate H|]. intros H.
      assert (textureLoadsInFlight t <> 0) by (intros H0; apply Hiff in H0; discriminate).
      lia.
    + split; [lia|]. split; [intros H; discriminate H | lia].
  - unfold markTextureLoadEnd.
    pose proof (recordAssetSize_timer asset_texture path entries) as Hrec.
    match goal with
    | |- context [recordAssetSize _ _ _ _ ?t1] =>
      specialize (Hrec t1);
      pose proof (f_equal (fun x => fst (fst x)) Hrec) as H1;
      pose proof (f_equal (fun x => snd (fst x)) Hrec) as H2;
      cbn [fst snd] in H1, H2; rewrite H1, H2; clear Hrec H1 H2
    end.
    destruct (textureLoadStart t) eqn:Hs.
    + destruct (Z.eqb_spec (Z.max 0 (textureLoadsInFlight t - 1)) 0) as [E|E]; simpl.
      * rewrite E. split; [lia | split; reflexivity].
      * split; [lia|]. split; [intros H; discriminate H | contradiction].
    + simpl. split; [lia|]. split; [|reflexivity].
      intros _. assert (textureLoadsInFlight t = 0) by (apply Hiff; reflexivity). lia.
Qed.

Lemma run_timerConsistent es t : timerConsistent t -> timerConsistent (run t es).
Proof.
  revert t; induction es as [|e es IH]; intros t H; [exact H|].
  apply IH, step_timerConsistent, H.
Qed.

(** C5: in every group of overlapping texture loads that begins when the
    in-flight counter is at zero, [textures.durationMs] stays unset until
    the completion that brings the counter back to zero, and is then the
    clock reading of that completion minus the reading taken when the
    first request of the group started. *)
Theorem texture_duration_spans_group
  (history : list Event) (first finish : Z) (rest : list Event) :
  let t := run initial history in
  textureLoadsInFlight t = 0 ->
  closesGroup 1 rest = Some finish ->
  let es := EvTextureLoadStart first :: rest in
  durationMs (textures (loadMetrics (run t es))) = Some (finish - first)
  /\ textureLoadsInFlight (run t es) = 0
  /\ forall n, (0 < n < length es)%nat ->
               durationMs (textures (loadMetrics (run t (take n es)))) = None.
Proof.
  intros t Hk Hg es.
  assert (Hs : textureLoadStart t = None).
  { destruct (run_timerConsistent history initial) as [_ Hiff].
    - split; [reflexivity | split; reflexivity].
    - apply Hiff, Hk. }
  assert (Ht : timer (step t (EvTextureLoadStart first)) = (1, Some first, None)).
  { cbn. unfold markTextureLoadStart. rewrite Hs. simpl. rewrite Hk. reflexivity. }
  destruct (closesGroup_run rest _ 1 first finish Ht ltac:(lia) Hg) as [H1 H2].
  injection H1 as Ha Hb Hc.
  split; [exact Hc|]. split; [exact Ha|].
  intros [|n] [Hn0 Hn]; [lia|]. apply H2. simpl in Hn. lia.
Qed.

(** *** Total size and total duration *)

Lemma updateTotalSizeMetric_consistent t :
  positiveSize (sizeBytes (model (loadMetrics t))) ->
  positiveSize (sizeBytes (textures (loadMetrics t))) ->
  sizesConsistent (updateTotalSizeMetric t).
Proof.
  unfold sizesConsistent, updateTotalSizeMetric, derivedSize, positiveSize. simpl.
  destruct (sizeBytes (model (loadMetrics t))) as [a|],
           (sizeBytes (textures (loadMetrics t))) as [b|]; simpl; intros Ha Hb;
    (split; [|split; assumption]);
    try (destruct (Z.ltb_spec 0 (a + b)); [reflexivity | lia]);
    try (destruct (Z.ltb_spec 0 (a + 0)); [reflexivity | lia]);
    try (destruct (Z.ltb_spec 0 (0 + b)); [reflexivity | lia]);
    reflexivity.
Qed.

Lemma commitAssetSize_consistent type url size t :
  sizesConsistent t -> sizesConsistent (commitAssetSize type url size t).
Proof.
  intros (Htot & Hm & Ht). unfold commitAssetSize.
  destruct size as [size|]; [|repeat split; assumption].
  destruct (Z.ltb_spec 0 size) as [Hpos|Hneg]; simpl; [|repeat split; assumption].
  destruct type; apply updateTotalSizeMetric_consistent; simpl; try assumption.
  unfold positiveSize in Ht |- *.
  destruct (sizeBytes (textures (loadMetrics t))); simpl; lia.
Qed.

Lemma recordAssetSize_consistent type path entries t :
  sizesConsistent t ->
  sizesConsistent (recordAssetSize toAbsoluteAssetUrl type path entries t).
Proof.
  intros H. unfold recordAssetSize. destruct type.
  - destruct (modelSizeRecorded t); [exact H|].
    destruct (JS.nullish _ _); [apply commitAssetSize_consistent|]; exact H.
  - destruct (bool_decide _); [exact H|].
    destruct (JS.nullish _ _); [apply commitAssetSize_consistent|]; exact H.
Qed.

Lemma step_consistent t e : sizesConsistent t -> sizesConsistent (step t e).
Proof.
  intros H. pose proof H as (Htot & Hm & Ht).
  destruct e; cbn [Tracker.step].
  - repeat split.
  - exact H.
  - exact H.
  - unfold markModelLoadEnd. apply recordAssetSize_consistent.
    destruct (modelLoadStart t); exact H.
  - unfold markTextureLoadStart. destruct (textureLoadStart t); exact H.
  - unfold markTextureLoadEnd. apply recordAssetSize_consistent.
    destruct (textureLoadStart t); [destruct (_ =? _)|]; exact H.
  - unfold resumeAssetSize. destruct enableSizeProbeFallback;
      [apply commitAssetSize_consistent|]; exact H.
  - unfold markFirstFrameRendered.
    destruct (hasRenderedFirstFrame t || loading t); [exact H|].
    apply updateTotalSizeMetric_consistent; assumption.
Qed.

Lemma run_consistent es t : sizesConsistent t -> sizesConsistent (run t es).
Proof.
  revert t; induction es as [|e es IH]; intros t H; [exact H|].
  apply IH, step_consistent, H.
Qed.

Local Abbreviation totalDuration t := (durationMs (total (loadMetrics t))).

Lemma commitAssetSize_totalDuration type url size t :
  totalDuration (commitAssetSize type url size t) = totalDuration t.
Proof.
  unfold commitAssetSize. destruct size as [size|]; [|reflexivity].
  destruct (negb (0 <? size)); [reflexivity|]. destruct type; reflexivity.
Qed.

Lemma recordAssetSize_totalDuration type path entries t :
  totalDuration (recordAssetSize toAbsoluteAssetUrl type path entries t)
  = totalDuration t.
Proof.
  unfold recordAssetSize. destruct type.
  - destruct (modelSizeRecorded t); [reflexivity|].
    destruct (JS.nullish _ _); [apply commitAssetSize_totalDuration | reflexivity].
  - destruct (bool_decide _); [reflexivity|].
    destruct (JS.nullish _ _); [apply commitAssetSize_totalDuration | reflexivity].
Qed.

(** What a frame looks at and what it writes. *)
Local Abbreviation frameView t :=
  (hasRenderedFirstFrame t, loading t, totalDuration t).

Lemma commitAssetSize_frameView type url size t :
  frameView (commitAssetSize type url size t) = frameView t.
Proof.
  unfold commitAssetSize. destruct size as [size|]; [|reflexivity].
  destruct (negb (0 <? size)); [reflexivity|]. destruct type; reflexivity.
Qed.

Lemma recordAssetSize_frameView type path entries t :
  frameView (recordAssetSize toAbsoluteAssetUrl type path entries t) = frameView t.
Proof.
  unfold recordAssetSize. destruct type.
  - destruct (modelSizeRecorded t); [reflexivity|].
    destruct (JS.nullish _ _); [apply commitAssetSize_frameView | reflexivity].
  - destruct (bool_decide _); [reflexivity|].
    destruct (JS.nullish _ _); [apply commitAssetSize_frameView | reflexivity].
Qed.

(** How one event moves the frame mark, the loading flag and the total
    duration: only a reset clears, only [loading.value = false] ends the
    loading, and only a frame that finds the mark unset and the loading
    over writes the duration. *)
Lemma step_frameView t e :
  frameView (step t e)
  = match e with
    | EvReset => (false, loading t, None)
    | EvFinishLoading => (hasRenderedFirstFrame t, false, totalDuration t)
    | EvFrame now =>
      if hasRenderedFirstFrame t || loading t then frameView t
      else (true, loading t, Some now)
    | _ => frameView t
    end.
Proof.
  destruct e; cbn [Tracker.step].
  - reflexivity.
  - reflexivity.
  - reflexivity.
  - unfold markModelLoadEnd. rewrite recordAssetSize_frameView.
    destruct (modelLoadStart t); reflexivity.
  - unfold markTextureLoadStart. destruct (textureLoadStart t); reflexivity.
  - unfold markTextureLoadEnd. rewrite recordAssetSize_frameView.
    destruct (textureLoadStart t); [destruct (_ =? _)|]; reflexivity.
  - unfold resumeAssetSize. destruct enableSizeProbeFallback; [|reflexivity].
    apply commitAssetSize_frameView.
  - unfold markFirstFrameRendered.
    destruct (hasRenderedFirstFrame t || loading t); reflexivity.
Qed.

Lemma step_loading t e :
  loading (step t e)
  = match e with EvFinishLoading => false | _ => loading t end.
Proof.
  pose proof (f_equal (fun v => snd (fst v)) (step_frameView t e)) as H.
  cbn [fst snd] in H. rewrite H.
  destruct e; try reflexivity.
  destruct (hasRenderedFirstFrame t || loading t); reflexivity.
Qed.

Lemma step_rendered t e :
  hasRenderedFirstFrame (step t e)
  = match e with
    | EvReset => false
    | EvFrame _ => hasRenderedFirstFrame t || negb (loading t)
    | _ => hasRenderedFirstFrame t
    end.
Proof.
  pose proof (f_equal (fun v => fst (fst v)) (step_frameView t e)) as H.
  cbn [fst snd] in H. rewrite H.
  destruct e; try reflexivity.
  destruct (hasRenderedFirstFrame t), (loading t); reflexivity.
Qed.

Lemma step_total t e :
  totalDuration (step t e)
  = match e with
    | EvReset => None
    | EvFrame now =>
      if hasRenderedFirstFrame t || loading t then totalDuration t else Some now
    | _ => totalDuration t
    end.
Proof.
  pose proof (f_equal snd (step_frameView t e)) as H.
  cbn [fst snd] in H. rewrite H.
  destruct e; try reflexivity.
  destruct (hasRenderedFirstFrame t || loading t); reflexivity.
Qed.

Lemma run_snoc t es e : run t (es ++ [e]) = step (run t es) e.
Proof. unfold Tracker.run. rewrite fold_left_app. reflexivity. Qed.

(** Where the last element of a list sits in a split of the list. *)
Lemma snoc_split {A} (l a b : list A) (x y : A) :
  l ++ [x] = a ++ y :: b ->
  (b = [] /\ a = l /\ y = x) \/ (exists b', b = b' ++ [x] /\ l = a ++ y :: b').
Proof.
  induction b as [|z b _] using rev_ind; intros H.
  - apply app_inj_tail in H as [-> ->]. left. auto.
  - right. exists b.
    rewrite app_comm_cons, app_assoc in H.
    apply app_inj_tail in H as [-> ->]. auto.
Qed.

(** *** The trace conditions, event by event *)

Lemma noFrameCounted_nil : noFrameCounted [].
Proof. intros [|e before] now after H _; discriminate H. Qed.

Lemma noFrameCounted_init es e :
  noFrameCounted (es ++ [e]) -> e <> EvReset -> noFrameCounted es.
Proof.
  intros H He before now after -> Hfin.
  specialize (H before now (after ++ [e])).
  rewrite <- app_assoc in H. specialize (H eq_refl Hfin).
  apply in_app_iff in H as [H | [H | []]]; [exact H | congruence].
Qed.

Lemma noFrameCounted_snoc es e :
  noFrameCounted es -> (forall now, e <> EvFrame now) -> noFrameCounted (es ++ [e]).
Proof.
  intros H He before now after Hsplit Hfin.
  apply snoc_split in Hsplit as [(_ & _ & Hframe) | (after' & -> & ->)].
  - exfalso. exact (He now (eq_sym Hframe)).
  - apply in_app_iff. left. exact (H before now after' eq_refl Hfin).
Qed.

Lemma noFrameCounted_reset es : noFrameCounted (es ++ [EvReset]).
Proof.
  intros before now after Hsplit _.
  apply snoc_split in Hsplit as [(_ & _ & Hframe) | (after' & -> & _)].
  - discriminate Hframe.
  - apply in_app_iff. right. left. reflexivity.
Qed.

Lemma noFrameCounted_frame es now :
  noFrameCounted (es ++ [EvFrame now])
  <-> noFrameCounted es /\ ~ loadingFinished es.
Proof.
  split.
  - intros H. split.
    + apply (noFrameCounted_init es (EvFrame now) H). discriminate.
    + intros Hfin. exact (H es now [] eq_refl Hfin).
  - intros [H Hloading] before now' after Hsplit Hfin.
    apply snoc_split in Hsplit as [(_ & -> & _) | (after' & -> & ->)].
    + exfalso. exact (Hloading Hfin).
    + apply in_app_iff. left. exact (H before now' after' eq_refl Hfin).
Qed.

Lemma firstFrame_nil d : ~ firstFrameAfterLoading [] d.
Proof. intros ([|e before] & after & H & _); discriminate H. Qed.

Lemma firstFrame_reset es d : ~ firstFrameAfterLoading (es ++ [EvReset]) d.
Proof.
  intros (before & after & Hsplit & _ & _ & Hreset).
  apply snoc_split in Hsplit as [(_ & _ & Hframe) | (after' & -> & _)].
  - discriminate Hframe.
  - apply Hreset, in_app_iff. right. left. reflexivity.
Qed.

Lemma firstFrame_keep es e d :
  firstFrameAfterLoading es d -> e <> EvReset ->
  firstFrameAfterLoading (es ++ [e]) d.
Proof.
  intros (before & after & -> & Hfin & Hnone & Hreset) He.
  exists before, (after ++ [e]). rewrite <- app_assoc.
  split; [reflexivity|]. split; [exact Hfin|]. split; [exact Hnone|].
  intros H. apply in_app_iff in H as [H | [H | []]]; [exact (Hreset H) | congruence].
Qed.

Lemma firstFrame_snoc es e d :
  firstFrameAfterLoading (es ++ [e]) d ->
  firstFrameAfterLoading es d
  \/ (e = EvFrame d /\ loadingFinished es /\ noFrameCounted es).
Proof.
  intros (before & after & Hsplit & Hfin & Hnone & Hreset).
  apply snoc_split in Hsplit as [(_ & -> & Hframe) | (after' & -> & ->)].
  - right. auto.
  - left. exists before, after'.
    split; [reflexivity|]. split; [exact Hfin|]. split; [exact Hnone|].
    intros H. apply Hreset, in_app_iff. left. exact H.
Qed.

Lemma firstFrame_here es d :
  loadingFinished es -> noFrameCounted es ->
  firstFrameAfterLoading (es ++ [EvFrame d]) d.
Proof.
  intros Hfin Hnone. exists es, [].
  split; [reflexivity|]. split; [exact Hfin|]. split; [exact Hnone|].
  intros [].
Qed.

Lemma firstFrame_counted es d :
  firstFrameAfterLoading es d -> ~ noFrameCounted es.
Proof.
  intros (before & after & -> & Hfin & _ & Hreset) H.
  exact (Hreset (H before d after eq_refl Hfin)).
Qed.

(** *** The state against the trace *)

Lemma run_loading es :
  loading (run initial es) = false <-> loadingFinished es.
Proof.
  unfold loadingFinished.
  induction es as [|e es IH] using rev_ind.
  - split; [discriminate | intros []].
  - rewrite run_snoc, step_loading, in_app_iff.
    destruct e;
      try (rewrite IH; split; [intros H; left; exact H
                              | intros [H | [H | []]]; [exact H | discriminate H]]).
    split; [intros _; right; left; reflexivity | reflexivity].
Qed.

Lemma run_rendered es :
  hasRenderedFirstFrame (run initial es) = false <-> noFrameCounted es.
Proof.
  induction es as [|e es IH] using rev_ind.
  - split; [intros _; apply noFrameCounted_nil | reflexivity].
  - rewrite run_snoc, step_rendered.
    destruct e;
      try (rewrite IH; split;
           [ intros H; apply noFrameCounted_snoc; [exact H | discriminate]
           | intros H; apply (noFrameCounted_init _ _ H); discriminate ]).
    + split; [intros _; apply noFrameCounted_reset | reflexivity].
    + rewrite noFrameCounted_frame, <- IH, <- run_loading.
      destruct (hasRenderedFirstFrame (run initial es)), (loading (run initial es));
        cbn [orb negb]; split; try discriminate; try tauto.
      intros _. split; [reflexivity | discriminate].
Qed.

(** [total.durationMs] holds [d] exactly when [d] is the clock reading of
    the first frame rendered after loading has finished. *)
Lemma run_total es d :
  totalDuration (run initial es) = Some d <-> firstFrameAfterLoading es d.
Proof.
  induction es as [|e es IH] using rev_ind.
  - split; [discriminate | intros H; destruct (firstFrame_nil d H)].
  - rewrite run_snoc, step_total.
    destruct e;
      try (rewrite IH; split;
           [ intros H; apply firstFrame_keep; [exact H | discriminate]
           | intros H; apply firstFrame_snoc in H as [H | (H & _)];
             [exact H | discriminate H] ]).
    + split; [discriminate | intros H; destruct (firstFrame_reset es d H)].
    + destruct (hasRenderedFirstFrame (run initial es) || loading (run initial es))
        eqn:Hguard.
      * rewrite IH. split.
        -- intros H. apply firstFrame_keep; [exact H | discriminate].
        -- intros H. apply firstFrame_snoc in H as [H | (_ & Hfin & Hnone)];
             [exact H | exfalso].
           apply run_loading in Hfin. apply run_rendered in Hnone.
           rewrite Hfin, Hnone in Hguard. discriminate Hguard.
      * apply orb_false_iff in Hguard as [Hnone Hfin].
        apply run_rendered in Hnone. apply run_loading in Hfin. split.
        -- intros [= ->]. apply firstFrame_here; assumption.
        -- intros H. apply firstFrame_snoc in H as [H | (H & _)].
           ++ destruct (firstFrame_counted es d H Hnone).
           ++ injection H as ->. reflexivity.
Qed.

(** C3, amended: after any sequence of updates [total.sizeBytes] is
    [model.sizeBytes + textures.sizeBytes] when either is known and unknown
    only when both are.  [total.durationMs] is not computed from the model
    and texture durations: it holds a value exactly when a frame has been
    rendered after loading finished and no reset followed, and the value is
    the clock reading of the first such frame. *)
Theorem total_metrics (es : list Event) :
  let t := run initial es in
  sizeBytes (total (loadMetrics t))
  = derivedSize (sizeBytes (model (loadMetrics t)))
                (sizeBytes (textures (loadMetrics t)))
  /\ (forall d, totalDuration t = Some d <-> firstFrameAfterLoading es d)
  /\ (totalDuration t = None <-> forall d, ~ firstFrameAfterLoading es d).
Proof.
  intros t. split; [|split].
  - apply (run_consistent es initial). repeat split.
  - intros d. apply run_total.
  - subst t. split.
    + intros Hnone d Hd. apply run_total in Hd. congruence.
    + intros H. destruct (totalDuration (run initial es)) as [d|] eqn:Hd;
        [|reflexivity].
      destruct (H d). apply run_total. exact Hd.
Qed.

End Telemetry.

(** C3, as stated, fails for the duration: [total.durationMs] is not a
    function of the model and texture durations.  Two runs that agree on
    both (100 ms and 40 ms) end with totals of 250 ms and 300 ms. *)
Lemma total_duration_not_derived :
  ~ exists derive : option Z -> option Z -> option Z,
      forall es : list Tracker.Event,
        let m := Tracker.loadMetrics
                   (Tracker.run false (fun p => p) Tracker.initial es) in
        Tracker.durationMs (Tracker.total m)
        = derive (Tracker.durationMs (Tracker.model m))
                 (Tracker.durationMs (Tracker.textures m)).
Proof.
  intros [derive H].
  pose (loads :=
    [ Tracker.EvModelLoadStart 100; Tracker.EvTextureLoadStart 110;
      Tracker.EvTextureLoadEnd 150 (js "a.png") [2048%Z];
      Tracker.EvModelLoadEnd 200 (js "gearpump.fbx") [4096%Z];
      Tracker.EvFinishLoading ]).
  pose proof (H (loads ++ [Tracker.EvFrame 250])) as H1.
  pose proof (H (loads ++ [Tracker.EvFrame 300])) as H2.
  vm_compute in H1, H2. congruence.
Qed.

Lemma texture_duration_spans_group_witness :
  Tracker.durationMs
    (Tracker.textures
       (Tracker.loadMetrics
          (Tracker.run false (fun p => p) Tracker.initial
             [ Tracker.EvTextureLoadStart 100;
               Tracker.EvTextureLoadStart 104;
               Tracker.EvTextureLoadEnd 130 (js "a.ktx2") [];
               Tracker.EvTextureLoadStart 131;
               Tracker.EvTextureLoadEnd 150 (js "b.ktx2") [2048%Z];
               Tracker.EvTextureLoadEnd 175 (js "c.ktx2") [] ])))
  = Some (175 - 100)%Z.
Proof.
  refine (proj1 (texture_duration_spans_group false (fun p => p) []
                   100 175 _ _ _)); reflexivity.
Defined.

(** ** The texture cache *)

Section TextureCache.
Import Session SessionTrace.

Variable build : Build.
Variable enableSizeProbeFallback : bool.
Variable toAbsoluteAssetUrl : list N -> list N.

Local Abbreviation step := (SessionTrace.step build enableSizeProbeFallback toAbsoluteAssetUrl).
Local Abbreviation run := (SessionTrace.run build enableSizeProbeFallback toAbsoluteAssetUrl).

(** A cache hit settles the promise at once and changes nothing. *)
Lemma call_hit path hint now s tex :
  textureCache s !! path = Some tex ->
  call build path hint now s = (s, Resolved tex).
Proof.
  intros H. unfold call, FbxSession.loadTexture, GlbSession.loadTexture.
  rewrite H. destruct build; reflexivity.
Qed.

Lemma call_miss path hint now s :
  textureCache s !! path = None ->
  loaderReady build path s = true ->
  call build path hint now s = (dispatch path now s, Pending).
Proof.
  intros H Hready.
  unfold call, FbxSession.loadTexture, GlbSession.loadTexture, loaderReady in *.
  rewrite H. destruct build; rewrite Hready; reflexivity.
Qed.








Lemma loaded_cache path hint texture now entries s :
  exists tex,
    snd (loaded build toAbsoluteAssetUrl path hint texture now entries s) = Resolved tex
    /\ textureCache (fst (loaded build toAbsoluteAssetUrl path hint texture now entries s))
       !! path = Some tex
    /\ fetches path (fst (loaded build toAbsoluteAssetUrl path hint texture now entries s))
       = fetches path s.
Proof.
  unfold loaded. destruct build; cbn; eexists;
    (split; [reflexivity | split; [apply lookup_insert_eq | reflexivity]]).
Qed.


End TextureCache.



(** ** Variant B: the extraction of the part key *)

Lemma findIndex_dropUntil (f : list N -> bool) (ts : list (list N)) :
  match Glb.findIndex f ts with
  | Some i => drop i ts = Glb.dropUntil f ts
  | None => Glb.dropUntil f ts = []
  end.
Proof.
  induction ts as [|t ts IH]; simpl; [reflexivity|].
  destruct (f t); [reflexivity|].
  destruct (Glb.findIndex f ts); simpl; exact IH.
Qed.

(** On tokens that are not empty the [for] loop keeps what stands before
    the first token beginning with [mat]. *)
Lemma collectTokens_takeUntil (rest collected : list (list N)) :
  Forall (fun t => truthy t = true) rest ->
  Glb.collectTokens rest collected
  = collected ++ Glb.takeUntil (fun t => startsWith t (js "mat")) rest.
Proof.
  intros H. revert collected.
  induction H as [|token rest Htok _ IH]; intros collected; simpl.
  - rewrite app_nil_r. reflexivity.
  - rewrite Htok. simpl.
    destruct (startsWith token (js "mat")).
    + rewrite app_nil_r. reflexivity.
    + rewrite IH, <- app_assoc. reflexivity.
Qed.

Lemma Forall_truthy_filter (ts : list (list N)) :
  Forall (fun t => truthy t = true) (List.filter truthy ts).
Proof.
  apply List.Forall_forall. intros t Ht. apply List.filter_In in Ht. apply Ht.
Qed.

(** *** The trailing instance index *)

Lemma numeric_no_underscore (p d : list N) :
  Glb.isNumericToken (p ++ 95 :: d) = false.
Proof.
  unfold Glb.isNumericToken. rewrite forallb_app. simpl.
  rewrite andb_false_r, andb_false_r. reflexivity.
Qed.

Lemma stripInstanceSuffix_cut (p d : list N) :
  Glb.isNumericToken d = true -> Glb.stripInstanceSuffix (p ++ 95 :: d) = p.
Proof.
  intros Hd. induction p as [|c p IH]; simpl.
  - rewrite Hd. reflexivity.
  - rewrite numeric_no_underscore, andb_false_r, IH. reflexivity.
Qed.

Lemma stripInstanceSuffix_keep (s : list N) :
  (forall p d, s = p ++ 95 :: d -> Glb.isNumericToken d = false) ->
  Glb.stripInstanceSuffix s = s.
Proof.
  induction s as [|c s IH]; intros H; simpl; [reflexivity|].
  destruct (N.eqb_spec c 95) as [->|Hc]; simpl.
  - rewrite (H [] s eq_refl). f_equal. apply IH.
    intros p d ->. apply (H (95 :: p) d). reflexivity.
  - f_equal. apply IH. intros p d ->. apply (H (c :: p) d). reflexivity.
Qed.

Lemma forallb_rev (f : N -> bool) (l : list N) :
  forallb f (rev l) = forallb f l.
Proof.
  induction l as [|c l IH]; simpl; [reflexivity|].
  rewrite forallb_app, IH. simpl. rewrite andb_true_r. apply andb_comm.
Qed.

Lemma stripTrailingIndex_cut (p d : list N) :
  Glb.isNumericToken d = true -> Glb.stripTrailingIndex (p ++ 95 :: d) = p.
Proof.
  intros Hd. unfold Glb.stripTrailingIndex.
  apply andb_true_iff in Hd as [Hne Hall].
  rewrite rev_app_distr. simpl rev. rewrite <- app_assoc. simpl app.
  rewrite (takeWhile_app_stop isDigit (rev d) (95 :: rev p))
    by (rewrite ?forallb_rev; auto).
  destruct (rev d) as [|c rd] eqn:E.
  - apply (f_equal (@length N)) in E. rewrite length_rev in E.
    destruct d; discriminate.
  - rewrite drop_app_length, N.eqb_refl. apply rev_involutive.
Qed.

Lemma stripTrailingIndex_keep (s : list N) :
  (forall p d, s = p ++ 95 :: d -> Glb.isNumericToken d = false) ->
  Glb.stripTrailingIndex s = s.
Proof.
  intros H. unfold Glb.stripTrailingIndex.
  destruct (takeWhile_split isDigit (rev s)) as (rest & Hs & Hall & _).
  set (digits := takeWhile isDigit (rev s)) in *. clearbody digits.
  destruct digits as [|c digits]; [reflexivity|].
  rewrite Hs, drop_app_length.
  destruct rest as [|u rest]; [reflexivity|].
  destruct (N.eqb_spec u 95) as [->|]; [exfalso | reflexivity].
  apply (f_equal (@rev N)) in Hs. rewrite rev_involutive, rev_app_distr in Hs.
  change (rev (95 :: rest)) with (rev rest ++ [95]) in Hs.
  rewrite <- app_assoc in Hs.
  specialize (H (rev rest) (rev (c :: digits)) Hs). unfold Glb.isNumericToken in H.
  rewrite forallb_rev, Hall in H.
  destruct (rev (c :: digits)) eqn:E; [|discriminate H].
  apply (f_equal (@length N)) in E. rewrite length_rev in E. discriminate.
Qed.

Lemma index_suffix_dec (s : list N) :
  (exists p d, s = p ++ 95 :: d /\ Glb.isNumericToken d = true)
  \/ (forall p d, s = p ++ 95 :: d -> Glb.isNumericToken d = false).
Proof.
  induction s as [|c s [(p & d & -> & Hd) | IH]].
  - right. intros [|] d H; discriminate H.
  - left. exists (c :: p), d. split; [reflexivity | exact Hd].
  - destruct (N.eqb_spec c 95) as [->|Hc].
    + destruct (Glb.isNumericToken s) eqn:Hs.
      * left. exists [], s. split; [reflexivity | exact Hs].
      * right. intros [|c p] d [= Heq]; [subst d; exact Hs|].
        subst. apply (IH p d). reflexivity.
    + right. intros [|c' p] d [= Heq1 Heq2]; [contradiction|].
      subst. apply (IH p d). reflexivity.
Qed.

(** The replacement by [/_\d+$/] cuts exactly a trailing [_<digits>]. *)
Lemma stripInstanceSuffix_trailing (s : list N) :
  Glb.stripInstanceSuffix s = Glb.stripTrailingIndex s.
Proof.
  destruct (index_suffix_dec s) as [(p & d & -> & Hd) | H].
  - rewrite stripInstanceSuffix_cut, stripTrailingIndex_cut by exact Hd. reflexivity.
  - rewrite stripInstanceSuffix_keep, stripTrailingIndex_keep by exact H. reflexivity.
Qed.

(** *** The pipeline *)

(** The code follows the worded pipeline once the [_low] step is the one
    of the code: every [_low] that ends at a word boundary. *)
Lemma extractPartKeyFromCandidate_refines (value : option (list N)) :
  Glb.extractPartKeyFromCandidate value
  = Glb.extractPartKeySpec (Glb.removeLowWords 0) value.
Proof.
  destruct value as [v|]; [|reflexivity].
  unfold Glb.extractPartKeyFromCandidate, Glb.extractPartKeySpec, Glb.sanitizeName.
  destruct (truthy v); [|reflexivity]. cbn [negb].
  set (tokens := List.filter truthy _).
  pose proof (findIndex_dropUntil Glb.isNumericToken tokens) as Hidx.
  destruct (Glb.findIndex Glb.isNumericToken tokens) as [index|].
  - rewrite collectTokens_takeUntil
      by (apply Forall_drop, Forall_truthy_filter).
    rewrite Hidx. cbn [app]. rewrite stripInstanceSuffix_trailing. reflexivity.
  - rewrite Hidx. reflexivity.
Qed.

(** *** The [_low] step *)

Lemma stripTrailingLow_app (p : list N) :
  Glb.stripTrailingLow (p ++ js "_low") = p.
Proof.
  unfold Glb.stripTrailingLow. rewrite rev_app_distr. simpl. apply rev_involutive.
Qed.

Lemma stripTrailingLow_spec (s : list N) :
  (exists p, s = p ++ js "_low" /\ Glb.stripTrailingLow s = p)
  \/ ((forall p, s <> p ++ js "_low") /\ Glb.stripTrailingLow s = s).
Proof.
  assert (Hno : forall w o l u r,
             rev s = w :: o :: l :: u :: r ->
             (u =? 95) && (l =? 108) && (o =? 111) && (w =? 119) = false ->
             forall p, s <> p ++ js "_low").
  { intros w o l u r E C p ->. rewrite rev_app_distr in E. simpl in E.
    injection E as <- <- <- <- _. discriminate C. }
  assert (Hshort : forall p, (length (rev s) < 4)%nat -> s <> p ++ js "_low").
  { intros p Hlen ->. rewrite length_rev, length_app in Hlen. simpl in Hlen. lia. }
  unfold Glb.stripTrailingLow.
  destruct (rev s) as [|w [|o [|l [|u r]]]] eqn:E;
    try (right; split; [intros p; apply Hshort; simpl; lia | reflexivity]).
  destruct ((u =? 95) && (l =? 108) && (o =? 111) && (w =? 119)) eqn:C.
  - left. exists (rev r). split; [|reflexivity].
    repeat (apply andb_true_iff in C as [C ?]).
    repeat match goal with H : (_ =? _) = true |- _ => apply N.eqb_eq in H end.
    subst. apply (f_equal (@rev N)) in E. rewrite rev_involutive in E.
    rewrite E. simpl. rewrite <- !app_assoc. reflexivity.
  - right. split; [|reflexivity]. eapply Hno; [reflexivity | exact C].
Qed.

Lemma stripTrailingLow_cons (c : N) (s : list N) :
  Glb.lowWordAt (c :: s) = false ->
  Glb.stripTrailingLow (c :: s) = c :: Glb.stripTrailingLow s.
Proof.
  intros Hat.
  destruct (stripTrailingLow_spec s) as [(p & -> & ->) | (Hno & ->)].
  - apply (stripTrailingLow_app (c :: p)).
  - destruct (stripTrailingLow_spec (c :: s)) as [(p & Heq & _) | (_ & ->)];
      [exfalso | reflexivity].
    destruct p as [|c' p].
    + injection Heq as -> ->. discriminate Hat.
    + injection Heq as _ ->. apply (Hno p). reflexivity.
Qed.

(** Where no [_low] stands before a non-word code unit, the replacement
    by [/_low\b/g] removes a trailing [_low] and nothing else. *)
Lemma removeLowWords_trailing (s : list N) :
  Glb.lowBeforeNonWord s = false ->
  Glb.removeLowWords 0 s = Glb.stripTrailingLow s.
Proof.
  induction s as [|c s IH]; [reflexivity|]. intros H.
  cbn [Glb.lowBeforeNonWord] in H. apply orb_false_iff in H as [Hhere Hrest].
  cbn [Glb.removeLowWords].
  destruct (Glb.lowWordAt (c :: s)) eqn:Hat.
  - destruct s as [|l [|o [|w rest]]]; try discriminate Hat.
    destruct rest as [|x rest].
    + cbn [Glb.lowWordAt] in Hat. rewrite andb_true_r in Hat.
      repeat (apply andb_true_iff in Hat as [Hat ?]).
      repeat match goal with H : (_ =? _) = true |- _ => apply N.eqb_eq in H end.
      subst. reflexivity.
    + cbn [Glb.lowWordAt] in Hat. rewrite Hat in Hhere. discriminate Hhere.
  - rewrite stripTrailingLow_cons by exact Hat. f_equal. apply IH, Hrest.
Qed.

(** C8, as stated, fails: [_low] is removed before a non-word character
    too, not only at the end.  For [4_screw_low.001] the code returns
    [4_screw001], the pipeline with a trailing-only removal
    [4_screw_low001]. *)
Lemma low_removed_inside_candidate :
  Glb.extractPartKeyFromCandidate (Some (js "4_screw_low.001"))
  = Some (js "4_screw001")
  /\ Glb.extractPartKeySpec Glb.stripTrailingLow (Some (js "4_screw_low.001"))
     = Some (js "4_screw_low001")
  /\ Glb.extractPartKeyFromCandidate (Some (js "4_screw_low.001"))
     <> Glb.extractPartKeySpec Glb.stripTrailingLow (Some (js "4_screw_low.001")).
Proof.
  split; [vm_compute; reflexivity|]. split; [vm_compute; reflexivity|].
  vm_compute. intros H. discriminate H.
Qed.

(** C8, amended: the extraction normalizes by collapsing white space to an
    underscore, removing every [_low] that is followed by the end of the
    string or by a non-word character, stripping the characters that are
    not alphanumeric or underscore and lowercasing; it splits on
    underscore, collects the tokens from the first purely numeric one up
    to but excluding the first one beginning with [mat], accepts only two
    or more tokens, and cuts a trailing [_<digits>] from the joined
    result.  For a candidate in which no [_low] stands before a non-word
    character this is the removal of a trailing [_low]. *)
Theorem extractPartKeyFromCandidate_pipeline (value : option (list N)) :
  Glb.extractPartKeyFromCandidate value
  = Glb.extractPartKeySpec (Glb.removeLowWords 0) value
  /\ (Glb.lowBeforeNonWord
        (Glb.replaceWhitespaceRuns false (default [] value)) = false ->
      Glb.extractPartKeyFromCandidate value
      = Glb.extractPartKeySpec Glb.stripTrailingLow value).
Proof.
  split; [apply extractPartKeyFromCandidate_refines|].
  intros H. rewrite extractPartKeyFromCandidate_refines.
  destruct value as [v|]; [|reflexivity].
  unfold Glb.extractPartKeySpec. simpl in H.
  rewrite (removeLowWords_trailing _ H). reflexivity.
Qed.

Lemma extractPartKeyFromCandidate_pipeline_witness :
  Glb.extractPartKeyFromCandidate (Some (js "Pump 4 screw_2_low"))
  = Glb.extractPartKeySpec Glb.stripTrailingLow
      (Some (js "Pump 4 screw_2_low")).
Proof.
  refine (proj2 (extractPartKeyFromCandidate_pipeline
                   (Some (js "Pump 4 screw_2_low"))) _).
  vm_compute. reflexivity.
Defined.

(** * Further properties *)

(** ** Telemetry: the first frame, the model timer, recorded sizes *)

Section TelemetryMore.
Import Tracker TrackerSums.

Variable enableSizeProbeFallback : bool.
Variable toAbsoluteAssetUrl : list N -> list N.

Local Open Scope Z_scope.

Local Abbreviation step := (Tracker.step enableSizeProbeFallback toAbsoluteAssetUrl).
Local Abbreviation run := (Tracker.run enableSizeProbeFallback toAbsoluteAssetUrl).
Local Abbreviation record := (Tracker.recordAssetSize toAbsoluteAssetUrl).

(** What the first frame writes. *)
Local Abbreviation frameMark t :=
  (hasRenderedFirstFrame t, durationMs (total (loadMetrics t))).

(** What the model timer consists of. *)
Local Abbreviation modelTimer t :=
  (modelLoadStart t, durationMs (model (loadMetrics t))).

Lemma commitAssetSize_marks type url size t :
  frameMark (commitAssetSize type url size t) = frameMark t
  /\ modelTimer (commitAssetSize type url size t) = modelTimer t.
Proof.
  unfold commitAssetSize. destruct size as [size|]; [|split; reflexivity].
  destruct (negb (0 <? size)); [split; reflexivity|].
  destruct type; split; reflexivity.
Qed.

Lemma recordAssetSize_marks type path entries t :
  frameMark (record type path entries t) = frameMark t
  /\ modelTimer (record type path entries t) = modelTimer t.
Proof.
  unfold recordAssetSize. destruct type.
  - destruct (modelSizeRecorded t); [split; reflexivity|].
    destruct (JS.nullish _ _); [apply commitAssetSize_marks | split; reflexivity].
  - destruct (bool_decide _); [split; reflexivity|].
    destruct (JS.nullish _ _); [apply commitAssetSize_marks | split; reflexivity].
Qed.

(** Once a frame has been marked only a reset touches the mark. *)
Lemma step_frameMark t e :
  hasRenderedFirstFrame t = true -> isReset e = false ->
  frameMark (step t e) = frameMark t.
Proof.
  intros Hdone Hreset. destruct e; try discriminate Hreset; cbn [Tracker.step].
  - reflexivity.
  - reflexivity.
  - unfold markModelLoadEnd.
    rewrite (proj1 (recordAssetSize_marks _ _ _ _)).
    destruct (modelLoadStart t); reflexivity.
  - unfold markTextureLoadStart. destruct (textureLoadStart t); reflexivity.
  - unfold markTextureLoadEnd.
    rewrite (proj1 (recordAssetSize_marks _ _ _ _)).
    destruct (textureLoadStart t); [destruct (_ =? _)|]; reflexivity.
  - unfold resumeAssetSize. destruct enableSizeProbeFallback; [|reflexivity].
    apply commitAssetSize_marks.
  - unfold markFirstFrameRendered.
    destruct (hasRenderedFirstFrame t) eqn:E; [|discriminate Hdone].
    cbn [orb]. rewrite E. reflexivity.
Qed.

(** A total duration is only ever shown after a frame was marked. *)
Lemma step_marked t e :
  (durationMs (total (loadMetrics t)) <> None -> hasRenderedFirstFrame t = true) ->
  durationMs (total (loadMetrics (step t e))) <> None ->
  hasRenderedFirstFrame (step t e) = true.
Proof.
  intros Hinv. destruct e; cbn [Tracker.step].
  - intros H. exfalso. apply H. reflexivity.
  - exact Hinv.
  - exact Hinv.
  - unfold markModelLoadEnd.
    match goal with
    | |- context [recordAssetSize _ _ _ _ ?t1] =>
      destruct (recordAssetSize_marks asset_model path entries t1) as [H _]
    end.
    pose proof (f_equal fst H) as H1. pose proof (f_equal snd H) as H2.
    cbn [fst snd] in H1, H2. rewrite H1, H2.
    destruct (modelLoadStart t); exact Hinv.
  - unfold markTextureLoadStart. destruct (textureLoadStart t); exact Hinv.
  - unfold markTextureLoadEnd.
    match goal with
    | |- context [recordAssetSize _ _ _ _ ?t1] =>
      destruct (recordAssetSize_marks asset_texture path entries t1) as [H _]
    end.
    pose proof (f_equal fst H) as H1. pose proof (f_equal snd H) as H2.
    cbn [fst snd] in H1, H2. rewrite H1, H2.
    destruct (textureLoadStart t); [destruct (_ =? _)|]; exact Hinv.
  - unfold resumeAssetSize. destruct enableSizeProbeFallback; [|exact Hinv].
    destruct (commitAssetSize_marks type absoluteUrl probed t) as [H _].
    pose proof (f_equal fst H) as H1. pose proof (f_equal snd H) as H2.
    cbn [fst snd] in H1, H2. rewrite H1, H2. exact Hinv.
  - unfold markFirstFrameRendered.
    destruct (hasRenderedFirstFrame t || loading t); [exact Hinv|].
    intros _. reflexivity.
Qed.

Lemma run_marked es t :
  (durationMs (total (loadMetrics t)) <> None -> hasRenderedFirstFrame t = true) ->
  durationMs (total (loadMetrics (run t es))) <> None ->
  hasRenderedFirstFrame (run t es) = true.
Proof.
  revert t; induction es as [|e es IH]; intros t H; [exact H|].
  apply IH. apply step_marked. exact H.
Qed.

Lemma run_frameMark es t :
  hasRenderedFirstFrame t = true -> forallb (fun e => negb (isReset e)) es = true ->
  frameMark (run t es) = frameMark t.
Proof.
  revert t; induction es as [|e es IH]; intros t Hdone Hes; [reflexivity|].
  cbn [forallb] in Hes. apply andb_true_iff in Hes as [He Hes].
  apply negb_true_iff in He.
  pose proof (step_frameMark t e Hdone He) as Hstep.
  assert (Hdone' : hasRenderedFirstFrame (step t e) = true)
    by (etransitivity; [exact (f_equal fst Hstep) | exact Hdone]).
  etransitivity; [apply (IH _ Hdone' Hes) | exact Hstep].
Qed.

(** X1: the total duration is written once.  From the moment
    [total.durationMs] holds a value, no later frame, load or size update
    changes it; only [resetLoadTracking] clears it. *)
Theorem total_duration_frozen (history es : list Event) (d : Z) :
  let t := run initial history in
  durationMs (total (loadMetrics t)) = Some d ->
  forallb (fun e => negb (isReset e)) es = true ->
  durationMs (total (loadMetrics (run t es))) = Some d.
Proof.
  intros t Hd Hes.
  assert (Hdone : hasRenderedFirstFrame t = true).
  { apply (run_marked history initial); [intros H; exfalso; apply H; reflexivity|].
    fold t. rewrite Hd. discriminate. }
  rewrite <- Hd. exact (f_equal snd (run_frameMark es t Hdone Hes)).
Qed.

Lemma run_app (t : Tracking) (es1 es2 : list Event) :
  run t (es1 ++ es2) = run (run t es1) es2.
Proof. apply fold_left_app. Qed.

Lemma step_modelTimer t e :
  touchesModelTimer e = false -> modelTimer (step t e) = modelTimer t.
Proof.
  destruct e; try discriminate; intros _; cbn [Tracker.step].
  - reflexivity.
  - unfold markTextureLoadStart. destruct (textureLoadStart t); reflexivity.
  - unfold markTextureLoadEnd.
    rewrite (proj2 (recordAssetSize_marks _ _ _ _)).
    destruct (textureLoadStart t); [destruct (_ =? _)|]; reflexivity.
  - unfold resumeAssetSize. destruct enableSizeProbeFallback; [|reflexivity].
    apply commitAssetSize_marks.
  - unfold markFirstFrameRendered.
    destruct (hasRenderedFirstFrame t || loading t); reflexivity.
Qed.

Lemma run_modelTimer es t :
  forallb (fun e => negb (touchesModelTimer e)) es = true ->
  modelTimer (run t es) = modelTimer t.
Proof.
  revert t; induction es as [|e es IH]; intros t Hes; [reflexivity|].
  cbn [forallb] in Hes. apply andb_true_iff in Hes as [He Hes].
  apply negb_true_iff in He.
  etransitivity; [apply (IH _ Hes) | apply step_modelTimer, He].
Qed.

(** X2: the model duration spans the load.  Whatever texture loads, size
    updates and frames happen between [markModelLoadStart] and
    [markModelLoadEnd], [model.durationMs] is unset in between and is the
    difference of the two clock readings afterwards. *)
Theorem model_duration_spans_load
  (t : Tracking) (start finish : Z) (path : list N) (entries : list Z)
  (mid : list Event) :
  forallb (fun e => negb (touchesModelTimer e)) mid = true ->
  durationMs (model (loadMetrics
    (run t (EvModelLoadStart start :: mid ++ [EvModelLoadEnd finish path entries]))))
  = Some (finish - start)
  /\ forall n, (n <= length mid)%nat ->
       durationMs (model (loadMetrics
         (run t (EvModelLoadStart start :: take n mid)))) = None.
Proof.
  intros Hmid.
  assert (Hquiet : forall n,
             modelTimer (run t (EvModelLoadStart start :: take n mid))
             = (Some start, None)).
  { intros n. cbn [Tracker.run fold_left].
    change (fold_left step (take n mid) (step t (EvModelLoadStart start)))
      with (run (step t (EvModelLoadStart start)) (take n mid)).
    rewrite run_modelTimer; [reflexivity|].
    rewrite <- (take_drop n mid), forallb_app in Hmid.
    apply andb_true_iff in Hmid. apply Hmid. }
  split.
  - change (EvModelLoadStart start :: mid ++ [EvModelLoadEnd finish path entries])
      with ((EvModelLoadStart start :: mid) ++ [EvModelLoadEnd finish path entries]).
    rewrite run_app.
    specialize (Hquiet (length mid)). rewrite firstn_all in Hquiet.
    set (t1 := run t (EvModelLoadStart start :: mid)) in *. clearbody t1.
    cbn [Tracker.run fold_left Tracker.step]. unfold markModelLoadEnd.
    match goal with
    | |- context [recordAssetSize _ _ _ _ ?t2] =>
      pose proof (f_equal snd (proj2 (recordAssetSize_marks asset_model path entries t2)))
        as H2
    end.
    cbn [snd] in H2. rewrite H2.
    pose proof (f_equal fst Hquiet) as H1. cbn [fst] in H1.
    cbn. rewrite H1. reflexivity.
  - intros n _. exact (f_equal snd (Hquiet n)).
Qed.

Local Abbreviation timer t :=
  (textureLoadsInFlight t, textureLoadStart t,
   durationMs (textures (loadMetrics t))).

(** While the texture timer runs no texture duration is shown. *)
Lemma step_running_unset t e :
  (textureLoadStart t <> None -> durationMs (textures (loadMetrics t)) = None) ->
  textureLoadStart (step t e) <> None ->
  durationMs (textures (loadMetrics (step t e))) = None.
Proof.
  intros Hinv.
  pose proof (step_other_timer enableSizeProbeFallback toAbsoluteAssetUrl t e) as Hother.
  destruct e;
    try (pose proof (f_equal (fun x => snd (fst x)) Hother) as H1;
         pose proof (f_equal snd Hother) as H2;
         cbn [fst snd] in H1, H2; rewrite H1, H2; exact Hinv);
    clear Hother; cbn [Tracker.step].
  - intros H. exfalso. apply H. reflexivity.
  - unfold markTextureLoadStart.
    destruct (textureLoadStart t) eqn:Hs; intros _; [|reflexivity].
    cbn. apply Hinv. discriminate.
  - unfold markTextureLoadEnd.
    pose proof (recordAssetSize_timer toAbsoluteAssetUrl asset_texture path entries) as Hrec.
    match goal with
    | |- context [recordAssetSize _ _ _ _ ?t1] =>
      specialize (Hrec t1);
      pose proof (f_equal (fun x => snd (fst x)) Hrec) as H1;
      pose proof (f_equal snd Hrec) as H2;
      cbn [fst snd] in H1, H2; rewrite H1, H2; clear Hrec H1 H2
    end.
    destruct (textureLoadStart t) eqn:Hs.
    + destruct (_ =? _); cbn.
      * intros H. exfalso. apply H. reflexivity.
      * intros _. apply Hinv. discriminate.
    + cbn. rewrite ?Hs. intros H. exfalso. apply H. reflexivity.
Qed.

Lemma run_running_unset es t :
  (textureLoadStart t <> None -> durationMs (textures (loadMetrics t)) = None) ->
  textureLoadStart (run t es) <> None ->
  durationMs (textures (loadMetrics (run t es))) = None.
Proof.
  revert t; induction es as [|e es IH]; intros t H; [exact H|].
  apply IH. apply step_running_unset. exact H.
Qed.

(** X3: the texture timer is consistent on every reachable state: the
    in-flight counter is never negative, the start reading is held exactly
    while the counter is positive, and no texture duration is shown while a
    load is in flight. *)
Theorem texture_timer_invariant (es : list Event) :
  let t := run initial es in
  0 <= textureLoadsInFlight t
  /\ (textureLoadStart t = None <-> textureLoadsInFlight t = 0)
  /\ (textureLoadsInFlight t <> 0 ->
      durationMs (textures (loadMetrics t)) = None).
Proof.
  intros t.
  destruct (run_timerConsistent enableSizeProbeFallback toAbsoluteAssetUrl es initial)
    as [Hge Hiff]; [split; [reflexivity | split; reflexivity]|].
  split; [exact Hge|]. split; [exact Hiff|].
  intros Hk. apply (run_running_unset es initial).
  - intros H. exfalso. apply H. reflexivity.
  - intros Hs. apply Hk, Hiff, Hs.
Qed.

(** *** Recorded sizes *)

(** X4: an asset counts once.  When [recordAssetSize] finds a size in the
    size cache or in resource timing, a texture that was not recorded yet
    adds exactly that size, and a second call for the same asset, whatever
    resource timing says then, changes nothing. *)
Theorem recordAssetSize_counts_once
  (type : AssetType) (path : list N) (entries entries' : list Z)
  (t : Tracking) (size : Z) :
  JS.nullish (assetSizeCache t !! toAbsoluteAssetUrl path)
             (readPerformanceTransferSize entries) = Some size ->
  0 < size ->
  record type path entries' (record type path entries t)
  = record type path entries t
  /\ (toAbsoluteAssetUrl path ∉ recordedTextureAssets t ->
      sizeBytes (textures (loadMetrics (record asset_texture path entries t)))
      = Some (default 0 (sizeBytes (textures (loadMetrics t))) + size)).
Proof.
  intros Hsize Hpos.
  assert (Hlt : negb (0 <? size) = false)
    by (apply negb_false_iff, Z.ltb_lt, Hpos).
  split.
  - destruct type.
    + destruct (modelSizeRecorded t) eqn:Hrec.
      * assert (record asset_model path entries t = t) as ->
          by (unfold recordAssetSize; rewrite Hrec; reflexivity).
        unfold recordAssetSize. rewrite Hrec. reflexivity.
      * assert (record asset_model path entries t
                = commitAssetSize asset_model (toAbsoluteAssetUrl path) (Some size) t)
          as -> by (unfold recordAssetSize; rewrite Hrec, Hsize; reflexivity).
        unfold commitAssetSize. rewrite Hlt. reflexivity.
    + destruct (bool_decide (toAbsoluteAssetUrl path ∈ recordedTextureAssets t)) eqn:Hrec.
      * assert (record asset_texture path entries t = t) as ->
          by (unfold recordAssetSize; rewrite Hrec; reflexivity).
        unfold recordAssetSize. rewrite Hrec. reflexivity.
      * assert (record asset_texture path entries t
                = commitAssetSize asset_texture (toAbsoluteAssetUrl path) (Some size) t)
          as -> by (unfold recordAssetSize; rewrite Hrec, Hsize; reflexivity).
        unfold commitAssetSize. rewrite Hlt.
        unfold recordAssetSize.
        cbn [recordedTextureAssets updateTotalSizeMetric withMetrics].
        rewrite bool_decide_eq_true_2 by set_solver. reflexivity.
  - intros Hfresh. unfold recordAssetSize.
    rewrite bool_decide_eq_false_2 by exact Hfresh.
    rewrite Hsize. unfold commitAssetSize. rewrite Hlt. reflexivity.
Qed.

(** X5: the size cache outlives a reset.  [resetLoadTracking] clears the
    metrics and the set of recorded textures but not the size cache, so a
    texture recorded again after a reset shows its cached size even when
    resource timing has no entry for it. *)
Theorem size_cache_survives_reset (t : Tracking) (path : list N) (size : Z) :
  assetSizeCache t !! toAbsoluteAssetUrl path = Some size ->
  0 < size ->
  let t' := record asset_texture path [] (resetLoadTracking t) in
  sizeBytes (textures (loadMetrics t')) = Some size
  /\ sizeBytes (total (loadMetrics t')) = Some size
  /\ recordedTextureAssets t' = {[toAbsoluteAssetUrl path]}
  /\ assetSizeCache t' = assetSizeCache t.
Proof.
  intros Hcache Hpos. cbv zeta. unfold recordAssetSize, resetLoadTracking.
  cbn [recordedTextureAssets assetSizeCache].
  rewrite bool_decide_eq_false_2 by set_solver.
  rewrite Hcache. cbn [JS.nullish]. unfold commitAssetSize.
  replace (negb (0 <? size)) with false
    by (symmetry; apply negb_false_iff, Z.ltb_lt, Hpos).
  cbn. replace (0 <? 0 + (0 + size)) with true by (symmetry; apply Z.ltb_lt; lia).
  split; [f_equal; lia|]. split; [f_equal; lia|]. split.
  - apply (right_id_L ∅ (∪)).
  - apply insert_id, Hcache.
Qed.

Lemma recordedSum_insert (f : list N -> Z) (X : gset (list N)) (x : list N) :
  x ∉ X ->
  set_fold (fun u acc => acc + f u) 0 ({[x]} ∪ X)
  = set_fold (fun u acc => acc + f u) 0 X + f x.
Proof.
  intros Hx.
  rewrite (set_fold_disj_union_strong eq (fun u acc => acc + f u) 0 {[x]} X).
  - rewrite set_fold_singleton.
    rewrite (set_fold_comm_acc (fun u acc => acc + f u) (fun acc => acc + f x) 0).
    + reflexivity.
    + intros u acc. lia.
  - intros u. solve_proper.
  - intros u1 u2 acc _ _ _. lia.
  - set_solver.
Qed.

Lemma recordedSum_ext (f g : list N -> Z) (X : gset (list N)) :
  (forall x, x ∈ X -> f x = g x) ->
  set_fold (fun u acc => acc + f u) 0 X = set_fold (fun u acc => acc + g u) 0 X.
Proof.
  intros H. unfold set_fold. simpl.
  assert (Hl : forall x, x ∈ elements X -> f x = g x)
    by (intros x Hx; apply H, elem_of_elements, Hx).
  induction (elements X) as [|x l IH]; simpl; [reflexivity|].
  rewrite IH by (intros y Hy; apply Hl; right; exact Hy).
  rewrite (Hl x) by (left; reflexivity). reflexivity.
Qed.

Lemma sizesRecorded_updateTotal t :
  sizesRecorded t -> sizesRecorded (updateTotalSizeMetric t).
Proof. intros H. exact H. Qed.

(** A size that comes from the cache or, for an uncached URL, from
    resource timing keeps the sum. *)
Lemma commitAssetSize_recorded type url size t :
  sizesRecorded t ->
  (assetSizeCache t !! url = Some size \/ assetSizeCache t !! url = None) ->
  (type = asset_texture -> url ∉ recordedTextureAssets t) ->
  sizesRecorded (commitAssetSize type url (Some size) t).
Proof.
  intros [Hcached Hsum] Hknown Hfresh. unfold commitAssetSize.
  destruct (Z.ltb_spec 0 size) as [Hpos|Hneg]; cbn [negb]; [|split; assumption].
  assert (Hother : forall u, u ∈ recordedTextureAssets t ->
            <[url := size]> (assetSizeCache t) !! u = assetSizeCache t !! u).
  { intros u Hu. destruct (decide (url = u)) as [<-|Hne];
      [|apply lookup_insert_ne; exact Hne].
    destruct Hknown as [Hs|Hs].
    - rewrite lookup_insert_eq, Hs. reflexivity.
    - destruct (Hcached url Hu) as (n & Hn & _). congruence. }
  destruct type; apply sizesRecorded_updateTotal; split;
    cbn [recordedTextureAssets assetSizeCache loadMetrics textures sizeBytes].
  - intros u Hu. rewrite (Hother u Hu). apply Hcached, Hu.
  - rewrite Hsum. destruct (decide (recordedTextureAssets t = ∅)); [reflexivity|].
    f_equal. unfold recordedBytes. cbn [recordedTextureAssets assetSizeCache].
    apply recordedSum_ext. intros u Hu. rewrite (Hother u Hu). reflexivity.
  - intros u Hu. apply elem_of_union in Hu as [Hu|Hu].
    + apply elem_of_singleton in Hu. subst u. exists size.
      split; [apply lookup_insert_eq | exact Hpos].
    + rewrite (Hother u Hu). apply Hcached, Hu.
  - specialize (Hfresh eq_refl).
    destruct (decide ({[url]} ∪ recordedTextureAssets t = ∅)) as [Hempty|_].
    { exfalso. apply (not_elem_of_empty (C:=gset (list N)) url).
      rewrite <- Hempty. apply elem_of_union. left.
      apply elem_of_singleton. reflexivity. }
    f_equal. unfold recordedBytes. cbn [recordedTextureAssets assetSizeCache].
    rewrite recordedSum_insert by exact Hfresh.
    rewrite lookup_insert_eq. cbn [default].
    rewrite (recordedSum_ext _ (fun u => default 0 (assetSizeCache t !! u)))
      by (intros u Hu; rewrite (Hother u Hu); reflexivity).
    rewrite Hsum. destruct (decide (recordedTextureAssets t = ∅)) as [Hempty|_].
    + rewrite Hempty, set_fold_empty. reflexivity.
    + reflexivity.
Qed.

Lemma recordAssetSize_recorded type path entries t :
  sizesRecorded t -> sizesRecorded (record type path entries t).
Proof.
  intros H. unfold recordAssetSize.
  assert (Hsrc : forall size,
             JS.nullish (assetSizeCache t !! toAbsoluteAssetUrl path)
                        (readPerformanceTransferSize entries) = Some size ->
             assetSizeCache t !! toAbsoluteAssetUrl path = Some size
             \/ assetSizeCache t !! toAbsoluteAssetUrl path = None).
  { intros size. destruct (assetSizeCache t !! toAbsoluteAssetUrl path);
      cbn [JS.nullish]; auto. }
  destruct type.
  - destruct (modelSizeRecorded t); [exact H|].
    destruct (JS.nullish _ _) as [size|]; [|exact H].
    apply commitAssetSize_recorded; [exact H | apply Hsrc, eq_refl | discriminate].
  - destruct (bool_decide _) eqn:Hrec; [exact H|].
    apply bool_decide_eq_false in Hrec.
    destruct (JS.nullish _ _) as [size|]; [|exact H].
    apply commitAssetSize_recorded; [exact H | apply Hsrc, eq_refl | intros _; exact Hrec].
Qed.

End TelemetryMore.

Lemma total_duration_frozen_witness :
  Tracker.durationMs
    (Tracker.total
       (Tracker.loadMetrics
          (Tracker.run false (fun p => p)
             (Tracker.run false (fun p => p) Tracker.initial
                [Tracker.EvFinishLoading; Tracker.EvFrame 250])
             [Tracker.EvFrame 266; Tracker.EvTextureLoadStart 270;
              Tracker.EvTextureLoadEnd 300 (JS.js "a.ktx2") [2048%Z];
              Tracker.EvFrame 316])))
  = Some 250%Z.
Proof.
  refine (total_duration_frozen false (fun p => p)
            [Tracker.EvFinishLoading; Tracker.EvFrame 250] _ 250 _ _);
    reflexivity.
Defined.

Lemma model_duration_spans_load_witness :
  Tracker.durationMs
    (Tracker.model
       (Tracker.loadMetrics
          (Tracker.run false (fun p => p) Tracker.initial
             (Tracker.EvModelLoadStart 100
              :: [Tracker.EvTextureLoadStart 110;
                  Tracker.EvTextureLoadEnd 150 (JS.js "a.ktx2") [2048%Z]]
              ++ [Tracker.EvModelLoadEnd 200 (JS.js "model.glb") [4096%Z]]))))
  = Some (200 - 100)%Z.
Proof.
  refine (proj1 (model_duration_spans_load false (fun p => p) Tracker.initial
                   100 200 (JS.js "model.glb") [4096%Z]
                   [Tracker.EvTextureLoadStart 110;
                    Tracker.EvTextureLoadEnd 150 (JS.js "a.ktx2") [2048%Z]] _)).
  reflexivity.
Defined.

Section RecordedSizes.
Import Tracker TrackerSums.

Variable toAbsoluteAssetUrl : list N -> list N.

Local Open Scope Z_scope.

Lemma sizesRecorded_same (t t' : Tracking) :
  recordedTextureAssets t' = recordedTextureAssets t ->
  assetSizeCache t' = assetSizeCache t ->
  sizeBytes (textures (loadMetrics t')) = sizeBytes (textures (loadMetrics t)) ->
  sizesRecorded t -> sizesRecorded t'.
Proof.
  unfold sizesRecorded, recordedBytes. intros -> -> ->. auto.
Qed.

(** Without the size probe every event keeps the sum. *)
Lemma step_recorded t e :
  sizesRecorded t -> sizesRecorded (Tracker.step false toAbsoluteAssetUrl t e).
Proof.
  intros H. destruct e; cbn [Tracker.step].
  - split; [intros url Hurl; exfalso; revert Hurl; apply not_elem_of_empty|].
    cbn. destruct (decide (∅ = ∅)) as [_|Hne]; [reflexivity | contradiction].
  - exact H.
  - exact H.
  - unfold markModelLoadEnd. apply recordAssetSize_recorded.
    apply (sizesRecorded_same t); try reflexivity; [|exact H].
    cbn. destruct (modelLoadStart t); reflexivity.
  - unfold markTextureLoadStart.
    destruct (textureLoadStart t); exact H.
  - unfold markTextureLoadEnd. apply recordAssetSize_recorded.
    destruct (textureLoadStart t); [destruct (_ =? _)|];
      apply (sizesRecorded_same t); try reflexivity; exact H.
  - exact H.
  - unfold markFirstFrameRendered.
    destruct (hasRenderedFirstFrame t || loading t); exact H.
Qed.

(** X6: in the build without the size probe (the GLB build) the texture
    size shown is, on every reachable state, the sum of the cached sizes of
    the distinct texture URLs recorded, and unknown exactly when no texture
    has been recorded; every recorded URL has a positive cached size. *)
Theorem texture_bytes_are_recorded_sum (es : list Event) :
  sizesRecorded (Tracker.run false toAbsoluteAssetUrl initial es).
Proof.
  assert (Hinit : sizesRecorded initial).
  { split; [intros url Hurl; exfalso; revert Hurl; apply not_elem_of_empty|].
    cbn. destruct (decide (∅ = ∅)) as [_|Hne]; [reflexivity | contradiction]. }
  revert Hinit. generalize initial.
  induction es as [|e es IH]; intros t Ht; [exact Ht|].
  apply IH, step_recorded, Ht.
Qed.

(** X7: with the size probe enabled (the FBX build) the continuation that
    runs after the probe does not look at the set of recorded textures
    again: two probes settled for one URL add its size twice, although the
    URL is recorded once. *)
Theorem probe_settlements_add_twice (t : Tracking) (url : list N) (size : Z) :
  0 < size ->
  let t1 := resumeAssetSize true asset_texture url (Some size) t in
  let t2 := resumeAssetSize true asset_texture url (Some size) t1 in
  sizeBytes (textures (loadMetrics t2))
  = Some (default 0 (sizeBytes (textures (loadMetrics t))) + size + size)
  /\ recordedTextureAssets t2 = {[url]} ∪ recordedTextureAssets t
  /\ assetSizeCache t2 !! url = Some size.
Proof.
  intros Hpos. cbv zeta. unfold resumeAssetSize, commitAssetSize.
  replace (negb (0 <? size)) with false
    by (symmetry; apply negb_false_iff, Z.ltb_lt, Hpos).
  cbn [loadMetrics textures sizeBytes recordedTextureAssets assetSizeCache
       updateTotalSizeMetric withMetrics default].
  split; [reflexivity|]. split.
  - rewrite (assoc_L (∪)), (idemp_L (∪)). reflexivity.
  - apply lookup_insert_eq.
Qed.

End RecordedSizes.

Lemma recordAssetSize_counts_once_witness :
  Tracker.recordAssetSize (fun p => p) Tracker.asset_texture (JS.js "a.ktx2") []
    (Tracker.recordAssetSize (fun p => p) Tracker.asset_texture (JS.js "a.ktx2")
       [2048%Z] Tracker.initial)
  = Tracker.recordAssetSize (fun p => p) Tracker.asset_texture (JS.js "a.ktx2")
      [2048%Z] Tracker.initial.
Proof.
  refine (proj1 (recordAssetSize_counts_once (fun p => p) Tracker.asset_texture
                   (JS.js "a.ktx2") [2048%Z] [] Tracker.initial 2048 _ _));
    reflexivity.
Defined.

Lemma size_cache_survives_reset_witness :
  Tracker.sizeBytes
    (Tracker.textures
       (Tracker.loadMetrics
          (Tracker.recordAssetSize (fun p => p) Tracker.asset_texture
             (JS.js "a.ktx2") []
             (Tracker.resetLoadTracking
                (Tracker.recordAssetSize (fun p => p) Tracker.asset_texture
                   (JS.js "a.ktx2") [2048%Z] Tracker.initial)))))
  = Some 2048%Z.
Proof.
  refine (proj1 (size_cache_survives_reset (fun p => p)
                   (Tracker.recordAssetSize (fun p => p) Tracker.asset_texture
                      (JS.js "a.ktx2") [2048%Z] Tracker.initial)
                   (JS.js "a.ktx2") 2048 _ _)); [|reflexivity].
  vm_compute. reflexivity.
Defined.

Lemma probe_settlements_add_twice_witness :
  Tracker.sizeBytes
    (Tracker.textures
       (Tracker.loadMetrics
          (Tracker.resumeAssetSize true Tracker.asset_texture (JS.js "a.png")
             (Some 1048576%Z)
             (Tracker.resumeAssetSize true Tracker.asset_texture (JS.js "a.png")
                (Some 1048576%Z) Tracker.initial))))
  = Some (0 + 1048576 + 1048576)%Z.
Proof.
  refine (proj1 (probe_settlements_add_twice Tracker.initial (JS.js "a.png")
                   1048576 _)).
  reflexivity.
Defined.

(** ** Variant A: soundness of the resolver, binding of the channels *)

Section FbxMore.
Import JS Three.
Import Binding.

Variable manifestData : Fbx.TextureManifest.

(** X8: the FBX resolver never invents a key and misses none.  It returns
    null exactly when no key occurs in any non-blank name of the chain, and
    a key it returns is a manifest key that occurs in such a name. *)
Theorem findPartKeyFromObject_sound_complete (o : Object3D) :
  (Fbx.findPartKeyFromObject manifestData (Some o) = None <->
   forall n key, In n (chain o) -> In key (Fbx.keys manifestData) ->
                 truthy (trim (name n)) = true ->
                 includes (normalizeKey (name n)) (normalizeKey key) = false)
  /\ (forall K, Fbx.findPartKeyFromObject manifestData (Some o) = Some K ->
                In K (Fbx.keys manifestData)
                /\ exists n, In n (chain o)
                             /\ truthy (trim (name n)) = true
                             /\ includes (normalizeKey (name n)) (normalizeKey K) = true).
Proof.
  pose proof (findPartKeyFromNode_spec manifestData o) as Hspec.
  unfold Fbx.findPartKeyFromObject.
  destruct (Fbx.findPartKeyFromNode manifestData o) as [K'|].
  - destruct Hspec as (closer & n' & farther & before & after
                       & Hc & Hk & Ho & _ & _).
    apply andb_true_iff in Ho as [Ht Hinc].
    assert (Hn' : In n' (chain o))
      by (rewrite Hc; apply in_or_app; right; left; reflexivity).
    assert (HK' : In K' (Fbx.keys manifestData))
      by (rewrite Hk; apply in_or_app; right; left; reflexivity).
    split.
    + split; [discriminate|]. intros Hnone.
      rewrite (Hnone n' K' Hn' HK' Ht) in Hinc. discriminate Hinc.
    + intros K [= <-]. split; [exact HK'|]. exists n'. auto.
  - split.
    + split; [|reflexivity]. intros _ n key Hn Hkey Ht.
      specialize (Hspec n key Hn Hkey). rewrite Ht in Hspec. exact Hspec.
    + intros K HK. discriminate HK.
Qed.

(** X9: a manifest key without any letter, digit or underscore occurs in
    every name.  When such a key is declared first, every mesh whose own
    name is not blank resolves to it. *)
Theorem blank_key_captures_every_mesh
  (K0 : list N) (entry : Fbx.PartEntry) (rest : Fbx.TextureManifest) (o : Object3D) :
  manifestData = (K0, entry) :: rest ->
  normalizeKey K0 = [] ->
  truthy (trim (name o)) = true ->
  Fbx.findPartKeyFromObject manifestData (Some o) = Some K0.
Proof.
  intros -> Hblank Ht. unfold Fbx.findPartKeyFromObject.
  assert (Hm : Fbx.matchAtNode ((K0, entry) :: rest) o
               = Some (Fbx.mkPartMeta K0 (normalizeKey K0))).
  { unfold Fbx.matchAtNode. rewrite Ht.
    unfold Fbx.manifestPartMeta. cbn [Fbx.keys map fst find].
    unfold Fbx.nodeMatches at 1. cbn [Fbx.normalized]. rewrite Hblank.
    destruct (normalizeKey (trim (name o))); reflexivity. }
  destruct o; cbn [Fbx.findPartKeyFromNode]; rewrite Hm; reflexivity.
Qed.

(** X10: what a resolved mesh is given.  The returned part key has an entry
    in the manifest and the textures are those of one of its declared
    variants. *)
Theorem resolveManifestInfo_sound
  (mesh : Mesh) (materialName : option (list N)) (info : Fbx.ManifestInfo) :
  Fbx.resolveManifestInfo manifestData mesh materialName = Some info ->
  truthy (Fbx.partKey info) = true
  /\ Fbx.findPartKeyFromObject manifestData (Some (node mesh))
     = Some (Fbx.partKey info)
  /\ exists partEntry variantKey,
       Fbx.prop manifestData (Fbx.partKey info) = Some partEntry
       /\ In variantKey (Fbx.keys partEntry)
       /\ truthy variantKey = true
       /\ Fbx.prop partEntry variantKey = Some (Fbx.textures info).
Proof.
  unfold Fbx.resolveManifestInfo.
  destruct (Fbx.findPartKeyFromObject manifestData (Some (node mesh)))
    as [partKey|]; [|discriminate].
  destruct (truthy partKey) eqn:Hpk; cbn [negb]; [|discriminate].
  destruct (Fbx.prop manifestData partKey) as [partEntry|] eqn:Hentry; [|discriminate].
  destruct (Fbx.selectVariantKey partEntry _) as [variantKey|] eqn:Hsel; [|discriminate].
  destruct (truthy variantKey) eqn:Hvk; cbn [negb]; [|discriminate].
  destruct (Fbx.prop partEntry variantKey) as [tx|] eqn:Htx; [|discriminate].
  intros [= <-]. cbn [Fbx.partKey Fbx.textures].
  split; [exact Hpk|]. split; [reflexivity|].
  exists partEntry, variantKey. repeat split; try assumption.
  clear - Htx. induction partEntry as [|[k v] partEntry IH]; [discriminate Htx|].
  cbn [Fbx.prop] in Htx. cbn [Fbx.keys map fst].
  destruct (bool_decide (k = variantKey)) eqn:Hk.
  - left. apply bool_decide_eq_true in Hk. exact Hk.
  - right. apply IH, Htx.
Qed.

Variable load : list N -> bool -> option Texture.

(** X11: how the FBX build binds a resolved mesh.  The paths handed to
    [loadTexture] are those of the declared channels, in the order
    BaseColor, Normal, ORM.  The base colour (loaded as sRGB) goes to [map],
    the normal texture to [normalMap], and the ORM texture to [aoMap],
    [roughnessMap] and [metalnessMap]; a channel that is not declared or
    fails to load leaves its slots empty and touches no other slot. *)
Theorem fbx_material_binding
  (mesh : Mesh) (materialName : option (list N)) (info : Fbx.ManifestInfo) :
  Fbx.resolveManifestInfo manifestData mesh materialName = Some info ->
  exists m,
    Fbx.buildMaterialForMesh manifestData load mesh materialName
    = (fbxChannelRequest info BaseColor ++ fbxChannelRequest info Normal
       ++ fbxChannelRequest info ORM, Some m)
    /\ map_ m = fbxChannelLoad load info BaseColor true
    /\ normalMap m = fbxChannelLoad load info Normal false
    /\ aoMap m = fbxChannelLoad load info ORM false
    /\ roughnessMap m = fbxChannelLoad load info ORM false
    /\ metalnessMap m = fbxChannelLoad load info ORM false
    /\ metalness m = 1%Q /\ roughness m = 1%Q /\ envMapIntensity m = 1.2%Q.
Proof.
  intros Hinfo. unfold Fbx.buildMaterialForMesh. rewrite Hinfo.
  cbn [Fbx.textureMeta fold_left].
  unfold Fbx.bindChannel, fbxChannelRequest, fbxChannelLoad.
  cbn [Fbx.suffix Fbx.targets Fbx.srgb from_option id fst snd].
  destruct (Fbx.channel (Fbx.textures info) BaseColor) as [f1|];
    [destruct (truthy f1); cbn [negb];
     [destruct (load (Fbx.texturePathOf info f1) true)|]|];
    (destruct (Fbx.channel (Fbx.textures info) Normal) as [f2|];
     [destruct (truthy f2); cbn [negb];
      [destruct (load (Fbx.texturePathOf info f2) false)|]|]);
    (destruct (Fbx.channel (Fbx.textures info) ORM) as [f3|];
     [destruct (truthy f3); cbn [negb];
      [destruct (load (Fbx.texturePathOf info f3) false)|]|]);
    cbn [fst snd]; eexists; repeat split.
Qed.

End FbxMore.

Lemma blank_key_captures_every_mesh_witness :
  Fbx.findPartKeyFromObject
    [(JS.js "#", [(JS.js "matMetal", Fbx.mkTextures (Some (JS.js "a.png")) None None)]);
     (JS.js "Gear", [(JS.js "matMetal", Fbx.mkTextures (Some (JS.js "g.png")) None None)])]
    (Some (Three.Orphan (JS.js "Gear_01")))
  = Some (JS.js "#").
Proof.
  refine (blank_key_captures_every_mesh _ (JS.js "#") _ _ _ eq_refl _ _);
    reflexivity.
Defined.

Lemma resolveManifestInfo_sound_witness :
  let paint := Fbx.mkTextures (Some (JS.js "paint.png")) None None in
  let manifestData : Fbx.TextureManifest :=
    [(JS.js "Gear", [(JS.js "matMetal", Fbx.mkTextures (Some (JS.js "metal.png")) None None);
                     (JS.js "matPaint", paint)])] in
  let mesh := Three.mkMesh (Three.Orphan (JS.js "Gear_matPaint"))
                (Three.Single (Three.OtherMaterial (JS.js "steel"))) None false false in
  Fbx.findPartKeyFromObject manifestData (Some (Three.node mesh)) = Some (JS.js "Gear").
Proof.
  intros paint manifestData mesh.
  refine (proj1 (proj2 (resolveManifestInfo_sound manifestData mesh
                          (Some (JS.js "steel")) (Fbx.mkInfo (JS.js "Gear") paint) _))).
  vm_compute. reflexivity.
Defined.

Lemma fbx_material_binding_witness :
  let tx := Fbx.mkTextures (Some (JS.js "c.png")) None (Some (JS.js "orm.png")) in
  let manifestData : Fbx.TextureManifest := [(JS.js "Gear", [(JS.js "matMetal", tx)])] in
  let mesh := Three.mkMesh (Three.Orphan (JS.js "Gear_01"))
                (Three.Single (Three.OtherMaterial (JS.js "steel"))) None false false in
  let load := fun (path : list N) (srgb : bool) =>
                if srgb then None
                else Some (Three.mkTexture 5 Three.LinearSRGBColorSpace 16 true) in
  exists m,
    snd (Fbx.buildMaterialForMesh manifestData load mesh (Some (JS.js "steel"))) = Some m
    /\ Three.map_ m = None
    /\ Three.aoMap m = Some (Three.mkTexture 5 Three.LinearSRGBColorSpace 16 true).
Proof.
  intros tx manifestData mesh load.
  destruct (fbx_material_binding manifestData load mesh (Some (JS.js "steel"))
              (Fbx.mkInfo (JS.js "Gear") tx))
    as (m & Hb & Hmap & _ & Hao & _); [vm_compute; reflexivity|].
  exists m. rewrite Hb, Hmap, Hao. repeat split.
Defined.

(** ** Variant B: paths, loaders and the material *)

Section GlbMore.
Import JS Three Binding.

Lemma isKtx2_suffix (stem : list N) : Session.isKtx2 (stem ++ js ".ktx2") = true.
Proof. unfold Session.isKtx2. rewrite rev_app_distr. reflexivity. Qed.

Lemma glbTexturePath_ktx2 (variantKey : list N) (c : TextureChannel) :
  Session.isKtx2 (glbTexturePath variantKey c) = true.
Proof.
  unfold glbTexturePath, Glb.buildSharedTextureFileName.
  rewrite !app_assoc. apply isKtx2_suffix.
Qed.

Variable load :
  list N -> Glb.TextureColorSpace -> option (list N) -> option (list N) -> option Texture.

Lemma glb_requested_paths (mesh : Mesh) (materialName : option (list N)) :
  fst (Glb.buildMaterialForMesh load mesh materialName)
  = map (glbTexturePath (Glb.variantKeyOf mesh materialName)) [BaseColor; Normal; ORM].
Proof.
  unfold Glb.buildMaterialForMesh.
  cbn [Glb.textureMeta fold_left]. unfold Glb.bindChannel.
  cbn [Glb.suffix Glb.targets Glb.colorSpace from_option id fst snd].
  fold (glbTexturePath (Glb.variantKeyOf mesh materialName) BaseColor).
  fold (glbTexturePath (Glb.variantKeyOf mesh materialName) Normal).
  fold (glbTexturePath (Glb.variantKeyOf mesh materialName) ORM).
  destruct (load (glbTexturePath _ BaseColor) _ _ _);
    destruct (load (glbTexturePath _ Normal) _ _ _);
    destruct (load (glbTexturePath _ ORM) _ _ _);
    reflexivity.
Qed.

(** X12: how the GLB build binds a mesh.  Whatever the mesh and its
    material are called and whichever loads fail, exactly three paths are
    handed to [loadTexture], in the order BaseColor, Normal, ORM, and they
    depend on the variant key alone.  The base colour is requested as sRGB
    and goes to [map]; the normal and ORM textures are requested without a
    colour space and go to [normalMap] and to [aoMap], [roughnessMap],
    [metalnessMap]; the normal scale is (1, -1). *)
Theorem glb_material_binding (mesh : Mesh) (materialName : option (list N)) :
  let variantKey := Glb.variantKeyOf mesh materialName in
  let partKey := Glb.findPartKeyFromObject (Some (node mesh)) materialName in
  let label := Some (default variantKey (Glb.prop Glb.variantFileNameMap variantKey)) in
  exists m,
    Glb.buildMaterialForMesh load mesh materialName
    = ([glbTexturePath variantKey BaseColor; glbTexturePath variantKey Normal;
        glbTexturePath variantKey ORM], Some m)
    /\ map_ m = load (glbTexturePath variantKey BaseColor) Glb.cs_srgb partKey label
    /\ normalMap m = load (glbTexturePath variantKey Normal) Glb.cs_none partKey label
    /\ aoMap m = load (glbTexturePath variantKey ORM) Glb.cs_none partKey label
    /\ roughnessMap m = load (glbTexturePath variantKey ORM) Glb.cs_none partKey label
    /\ metalnessMap m = load (glbTexturePath variantKey ORM) Glb.cs_none partKey label
    /\ normalScale m = (1, -1)%Q.
Proof.
  cbv zeta. unfold Glb.buildMaterialForMesh.
  cbn [Glb.textureMeta fold_left]. unfold Glb.bindChannel.
  cbn [Glb.suffix Glb.targets Glb.colorSpace from_option id fst snd].
  fold (glbTexturePath (Glb.variantKeyOf mesh materialName) BaseColor).
  fold (glbTexturePath (Glb.variantKeyOf mesh materialName) Normal).
  fold (glbTexturePath (Glb.variantKeyOf mesh materialName) ORM).
  destruct (load (glbTexturePath _ BaseColor) _ _ _);
    destruct (load (glbTexturePath _ Normal) _ _ _);
    destruct (load (glbTexturePath _ ORM) _ _ _);
    cbn [fst snd]; eexists; repeat split.
Qed.

(** X13: the GLB build only ever uses the KTX2 loader.  Every path its
    material builder requests ends in [.ktx2], so on a cache miss
    [loadTexture] dispatches exactly when the KTX2 loader is there and
    rejects otherwise; the plain texture loader plays no part. *)
Theorem glb_requests_use_ktx2_loader
  (mesh : Mesh) (materialName : option (list N)) (path : list N) :
  In path (fst (Glb.buildMaterialForMesh load mesh materialName)) ->
  Session.isKtx2 path = true
  /\ forall s colorSpace partKey variant now,
       Session.textureCache s !! path = None ->
       GlbSession.loadTexture path colorSpace partKey variant now s
       = if Session.ktx2Loader s then (Session.dispatch path now s, Session.Pending)
         else (s, Session.Rejected).
Proof.
  intros Hin.
  assert (Hk : Session.isKtx2 path = true).
  { rewrite glb_requested_paths in Hin.
    apply in_map_iff in Hin as (c & <- & _). apply glbTexturePath_ktx2. }
  split; [exact Hk|].
  intros s colorSpace partKey variant now Hmiss.
  unfold GlbSession.loadTexture. rewrite Hmiss, Hk.
  destruct (Session.ktx2Loader s); reflexivity.
Qed.

(** X14: what [applyMaterialsToMesh] leaves of a mesh in the GLB build.
    The node is kept, both shadow flags are set, a geometry with a [uv] set
    and no [uv2] set gets [uv2] as a copy of [uv] while an existing [uv2]
    is kept, and every material, single or in an array of unchanged length,
    is replaced by a new unnamed standard material. *)
Theorem glb_applyMaterialsToMesh_shape (mesh : Mesh) :
  let r := fst (Glb.applyMaterialsToMesh load mesh) in
  node r = node mesh
  /\ castShadow r = true /\ receiveShadow r = true
  /\ match geometry mesh with
     | None => geometry r = None
     | Some g =>
       geometry r
       = Some (mkGeometry (uv g)
                 (match uv2 g with Some u2 => Some u2 | None => uv g end))
     end
  /\ match material mesh with
     | Single _ => exists c, material r = Single (Standard [] c)
     | Multi ms =>
       exists ms', material r = Multi ms'
                   /\ length ms' = length ms
                   /\ Forall (fun m => exists c, m = Standard [] c) ms'
     end.
Proof.
  cbv zeta. unfold Glb.applyMaterialsToMesh. cbn [fst node castShadow receiveShadow geometry material].
  split; [reflexivity|]. split; [reflexivity|]. split; [reflexivity|]. split.
  - destruct (geometry mesh) as [[[u|] [u2|]]|]; reflexivity.
  - destruct (material mesh) as [m|ms].
    + destruct (glb_buildMaterialForMesh_some load mesh (Some (materialName m)))
        as [c Hc].
      rewrite Hc. cbn [fst]. exists c. reflexivity.
    + cbn [fst]. eexists. split; [reflexivity|]. split; [apply length_map|].
      apply List.Forall_forall. intros m Hm. apply in_map_iff in Hm as (m0 & <- & _).
      destruct (glb_buildMaterialForMesh_some load mesh (Some (materialName m0)))
        as [c Hc].
      rewrite Hc. exists c. reflexivity.
Qed.

End GlbMore.

Lemma glb_requests_use_ktx2_loader_witness :
  Session.isKtx2 (JS.js "https://cdn.rainnnn.com/ktx/v3/model_MatPaint_Normal.ktx2") = true.
Proof.
  refine (proj1 (glb_requests_use_ktx2_loader (fun _ _ _ _ => None)
                   (Three.mkMesh (Three.Orphan (JS.js "4_screw_matPaint"))
                      (Three.Single (Three.OtherMaterial (JS.js ""))) None false false)
                   None _ _)).
  vm_compute. right. left. reflexivity.
Defined.

(** ** The texture cache across unmount *)

Section CacheMore.
Import JS Three Session SessionTrace.

Variable build : Build.
Variable toAbsoluteAssetUrl : list N -> list N.

(** X15: what [disposeResources] does to later loads.  It empties the
    cache but leaves the loaders in place, so every path, cached before or
    not, is fetched again; and the success callback of a load that was
    still in flight stores its texture in the emptied cache, with
    anisotropy 1 because the renderer is gone. *)
Theorem loads_after_dispose
  (s : Session) (path : list N) (hint : Hint) (texture : Texture)
  (now : Z) (entries : list Z) :
  loaderReady build path s = true ->
  call build path hint now (disposeResources s)
  = (dispatch path now (disposeResources s), Pending)
  /\ exists tex,
       snd (loaded build toAbsoluteAssetUrl path hint texture now entries
              (disposeResources s)) = Resolved tex
       /\ textureCache (fst (loaded build toAbsoluteAssetUrl path hint texture now
                               entries (disposeResources s)))
          = {[path := tex]}
       /\ anisotropy tex = 1%N
       /\ image tex = image texture.
Proof.
  intros Hready. split.
  - apply call_miss; [apply lookup_empty|].
    unfold loaderReady, disposeResources in *. destruct build; exact Hready.
  - unfold loaded, disposeResources, FbxSession.onLoad, GlbSession.onLoad.
    destruct build; cbn; eexists; repeat split.
Qed.

(** X16: the cache is keyed by the path alone.  A texture served from the
    cache keeps the colour space of the call that loaded it; the colour
    space asked for by the later call is ignored. *)
Theorem cached_texture_keeps_first_colour_space
  (s : Session) (path : list N) (hint hint' : Hint) (texture : Texture)
  (now now' : Z) (entries : list Z) :
  let done1 := loaded build toAbsoluteAssetUrl path hint texture now entries s in
  exists tex,
    snd (call build path hint' now' (fst done1)) = Resolved tex
    /\ Three.colorSpace tex
       = match build with
         | FbxBuild => if srgb hint then SRGBColorSpace else LinearSRGBColorSpace
         | GlbBuild => GlbSession.resolveColorSpace (Some (SessionTrace.colorSpace hint))
         end.
Proof.
  cbv zeta.
  destruct (loaded_cache build toAbsoluteAssetUrl path hint texture now entries s)
    as (tex & Hres & Hhit & _).
  exists tex. rewrite (call_hit build _ hint' now' _ _ Hhit). split; [reflexivity|].
  unfold loaded, FbxSession.onLoad, GlbSession.onLoad in Hres.
  destruct build; cbn in Hres; injection Hres as <-; reflexivity.
Qed.

End CacheMore.

Lemma loads_after_dispose_witness :
  let path := JS.js "https://cdn.rainnnn.com/ktx/v3/model_MatMetal_ORM.ktx2" in
  let hint := SessionTrace.mkHint false Glb.cs_none None None in
  let s := Session.mkSession Tracker.initial
             {[path := Three.mkTexture 1 Three.NoColorSpace 16 false]}
             true true (Some 16%N) [path] [] in
  snd (SessionTrace.call SessionTrace.GlbBuild path hint 50 s)
  = Session.Resolved (Three.mkTexture 1 Three.NoColorSpace 16 false)
  /\ snd (SessionTrace.call SessionTrace.GlbBuild path hint 50
            (Session.disposeResources s)) = Session.Pending.
Proof.
  intros path hint s. split; [vm_compute; reflexivity|].
  rewrite (proj1 (loads_after_dispose SessionTrace.GlbBuild (fun p => p) s path hint
                    (Three.mkTexture 2 Three.NoColorSpace 1 false) 50 [] eq_refl)).
  reflexivity.
Defined.

(** ** Normalized names *)

Section Names.
Import JS Three Binding.

Lemma word_lowered_normal (c : N) :
  isWordChar c = true -> isNormalUnit (lowerUnit c) = true.
Proof.
  unfold isWordChar, isAlnum, isNormalUnit, lowerUnit.
  destruct (isUpper c) eqn:Hup.
  - intros _. unfold isUpper in Hup. unfold isLower.
    bool_to_prop Hup. destruct Hup as [H1 H2].
    replace (97 <=? c + 32) with true by (symmetry; apply N.leb_le; lia).
    replace (c + 32 <=? 122) with true by (symmetry; apply N.leb_le; lia).
    reflexivity.
  - rewrite orb_false_r. intros H. exact H.
Qed.

Lemma normal_is_lower_word (c : N) :
  isNormalUnit c = true -> isWordChar c = true /\ lowerUnit c = c.
Proof.
  unfold isNormalUnit, isWordChar, isAlnum, lowerUnit. intros H.
  assert (Hup : isUpper c = false).
  { destruct (isUpper c) eqn:Hup; [exfalso | reflexivity].
    unfold isUpper in Hup. unfold isLower, isDigit in H.
    bool_to_prop Hup. bool_to_prop H. lia. }
  rewrite Hup, orb_false_r. split; [exact H | reflexivity].
Qed.

Lemma normalizeKey_normal (s : list N) :
  Forall (fun c => isNormalUnit c = true) (normalizeKey s).
Proof.
  unfold normalizeKey, toLowerCase. apply List.Forall_forall.
  intros c Hc. apply in_map_iff in Hc as (c0 & <- & Hc0).
  apply List.filter_In in Hc0 as [_ Hw]. apply word_lowered_normal, Hw.
Qed.

Lemma normalizeKey_fixed (s : list N) :
  Forall (fun c => isNormalUnit c = true) s -> normalizeKey s = s.
Proof.
  unfold normalizeKey, toLowerCase.
  induction 1 as [|c s Hc _ IH]; [reflexivity|].
  destruct (normal_is_lower_word c Hc) as [Hw Hl].
  cbn [List.filter]. rewrite Hw. cbn [map]. rewrite Hl, IH. reflexivity.
Qed.

Lemma lowerUnit_word (c : N) : isWordChar (lowerUnit c) = isWordChar c.
Proof.
  destruct (isWordChar c) eqn:Hw.
  - apply normal_is_lower_word, word_lowered_normal, Hw.
  - unfold lowerUnit. destruct (isUpper c) eqn:Hup; [exfalso | exact Hw].
    unfold isWordChar, isAlnum in Hw. rewrite Hup in Hw.
    rewrite orb_true_r in Hw. discriminate Hw.
Qed.

Lemma lowerUnit_idem (c : N) : lowerUnit (lowerUnit c) = lowerUnit c.
Proof.
  assert (Hc : lowerUnit c = if isUpper c then c + 32 else c) by reflexivity.
  destruct (isUpper c) eqn:Hup; rewrite Hc.
  - unfold lowerUnit, isUpper in *. bool_to_prop Hup.
    replace (c + 32 <=? 90) with false by (symmetry; apply N.leb_gt; lia).
    rewrite andb_false_r. reflexivity.
  - unfold lowerUnit. rewrite Hup. reflexivity.
Qed.

(** X17: [normalizeKey] yields a canonical form.  Its result holds only
    lowercase letters, digits and underscores; normalizing again changes
    nothing; the letter case of the input does not matter; and the normal
    form of a concatenation is the concatenation of the normal forms, so
    characters outside [[A-Za-z0-9_]] vanish wherever they stand. *)
Theorem normalizeKey_canonical (s u : list N) :
  Forall (fun c => isNormalUnit c = true) (normalizeKey s)
  /\ normalizeKey (normalizeKey s) = normalizeKey s
  /\ normalizeKey (toLowerCase s) = normalizeKey s
  /\ normalizeKey (s ++ u) = normalizeKey s ++ normalizeKey u.
Proof.
  split; [apply normalizeKey_normal|].
  split; [apply normalizeKey_fixed, normalizeKey_normal|].
  unfold normalizeKey, toLowerCase. split.
  - induction s as [|c s IH]; [reflexivity|].
    cbn [map List.filter]. rewrite lowerUnit_word.
    destruct (isWordChar c); [|exact IH].
    cbn [map]. rewrite lowerUnit_idem, IH. reflexivity.
  - rewrite List.filter_app, map_app. reflexivity.
Qed.

(** X18: the variant key of the GLB build is never empty and is in normal
    form: resolving it again gives the same key. *)
Theorem resolveVariantKey_canonical (variant : option (list N)) :
  truthy (Glb.resolveVariantKey variant) = true
  /\ Forall (fun c => isNormalUnit c = true) (Glb.resolveVariantKey variant)
  /\ Glb.resolveVariantKey (Some (Glb.resolveVariantKey variant))
     = Glb.resolveVariantKey variant.
Proof.
  assert (Hn : Forall (fun c => isNormalUnit c = true) (Glb.resolveVariantKey variant)).
  { unfold Glb.resolveVariantKey.
    destruct (truthy (normalizeKey (default [] variant)));
      [apply normalizeKey_normal|].
    repeat constructor. }
  assert (Ht : truthy (Glb.resolveVariantKey variant) = true).
  { unfold Glb.resolveVariantKey.
    destruct (truthy (normalizeKey (default [] variant))) eqn:E; [exact E | reflexivity]. }
  split; [exact Ht|]. split; [exact Hn|].
  unfold Glb.resolveVariantKey at 1. cbn [default from_option id].
  rewrite (normalizeKey_fixed _ Hn), Ht. reflexivity.
Qed.

(** *** The variant token, exactly *)

Lemma matchVariant_sound (value tok : list N) :
  matchVariant value = Some tok -> LeftmostMatch value tok.
Proof.
  induction value as [|c s IH]; [discriminate|].
  rewrite matchVariant_cons.
  destruct (matchVariantAt (c :: s)) as [m|] eqn:Hat.
  - intros [= <-]. apply matchVariantAt_sound in Hat as (post & Hs & Hm & Hstop).
    exists [], post. repeat split; try assumption.
    intros pre1 tok1 post1 _ _. simpl. lia.
  - intros H. destruct (IH H) as (pre & post & Hs & Hm & Hstop & Hleft).
    exists (c :: pre), post. repeat split; try assumption.
    + simpl. rewrite Hs. reflexivity.
    + intros [|c1 pre1] tok1 post1 Heq Htok1.
      * exfalso. simpl in Heq.
        apply (matchVariantAt_token tok1 post1 Htok1). rewrite <- Heq. exact Hat.
      * injection Heq as _ Heq. simpl.
        specialize (Hleft pre1 tok1 post1 Heq Htok1). lia.
Qed.

(** X19: [extractVariantName] finds exactly the leftmost match of
    [mat[a-z0-9]+] taken as far to the right as it goes, in any letter
    case, and returns null exactly when the name holds no such match. *)
Theorem extractVariantName_exact (value : list N) :
  (forall tok, extractVariantName (Some value) = Some tok <-> LeftmostMatch value tok)
  /\ (extractVariantName (Some value) = None <-> NoMatch value).
Proof.
  assert (Hextract : extractVariantName (Some value) = matchVariant value)
    by (destruct value; reflexivity).
  rewrite Hextract. split.
  - intros tok. split; [apply matchVariant_sound | apply matchVariant_leftmost].
  - split; apply matchVariant_NoMatch.
Qed.

End Names.

(** ** Variant B: the shape of a part key, the order of the candidates *)

Section PartKeys.
Import JS Three Binding.

Local Abbreviation normal := (fun c : N => isNormalUnit c = true).

Lemma split_normal (s : list N) :
  Forall normal s -> Forall (Forall normal) (Glb.split s).
Proof.
  induction 1 as [|c s Hc _ IH]; [repeat constructor|].
  cbn [Glb.split]. destruct (c =? 95).
  - constructor; [constructor | exact IH].
  - destruct (Glb.split s) as [|t ts]; [repeat constructor; exact Hc|].
    inversion IH; subst. constructor; [constructor|]; assumption.
Qed.

Lemma filter_Forall {A} (P : A -> Prop) (f : A -> bool) (l : list A) :
  Forall P l -> Forall P (List.filter f l).
Proof.
  intros H. apply List.Forall_forall. intros x Hx.
  apply List.filter_In in Hx as [Hx _]. revert x Hx. apply List.Forall_forall, H.
Qed.

Lemma dropUntil_Forall {A} (P : A -> Prop) (f : A -> bool) (l : list A) :
  Forall P l -> Forall P (Glb.dropUntil f l).
Proof.
  induction 1 as [|x l Hx Hl IH]; [constructor|].
  cbn [Glb.dropUntil]. destruct (f x); [constructor; assumption | exact IH].
Qed.

Lemma takeUntil_Forall {A} (P : A -> Prop) (f : A -> bool) (l : list A) :
  Forall P l -> Forall P (Glb.takeUntil f l).
Proof.
  induction 1 as [|x l Hx Hl IH]; [constructor|].
  cbn [Glb.takeUntil]. destruct (f x); constructor; assumption.
Qed.

Lemma join_normal (ts : list (list N)) :
  Forall (Forall normal) ts -> Forall normal (Glb.join ts).
Proof.
  induction 1 as [|t ts Ht Hts IH]; [constructor|].
  cbn [Glb.join]. destruct ts as [|t' ts']; [exact Ht|].
  apply Forall_app. split; [exact Ht|]. constructor; [reflexivity | exact IH].
Qed.

(** The replacement by [/_\d+$/] only cuts: the result is a prefix. *)
Lemma stripInstanceSuffix_prefix (s : list N) :
  exists cut, s = Glb.stripInstanceSuffix s ++ cut.
Proof.
  induction s as [|c s [cut IH]]; [exists []; reflexivity|].
  cbn [Glb.stripInstanceSuffix].
  destruct ((c =? 95) && Glb.isNumericToken s).
  - exists (c :: s). reflexivity.
  - exists cut. simpl. rewrite <- IH. reflexivity.
Qed.

Lemma stripInstanceSuffix_digits (d rest : list N) :
  forallb isDigit d = true ->
  Glb.stripInstanceSuffix (d ++ rest) = d ++ Glb.stripInstanceSuffix rest.
Proof.
  intros Hd. induction d as [|c d IH]; [reflexivity|].
  cbn [forallb] in Hd. apply andb_true_iff in Hd as [Hc Hd].
  cbn [app Glb.stripInstanceSuffix].
  assert ((c =? 95) = false) as ->.
  { apply N.eqb_neq. intros ->. discriminate Hc. }
  cbn [andb]. rewrite IH by exact Hd. reflexivity.
Qed.

Lemma dropUntil_head {A} (f : A -> bool) (l : list A) :
  match Glb.dropUntil f l with
  | x :: _ => f x = true
  | [] => True
  end.
Proof.
  induction l as [|x l IH]; [exact I|].
  cbn [Glb.dropUntil]. destruct (f x) eqn:Hx; [exact Hx | exact IH].
Qed.

(** A part key starts with a digit and is in normal form. *)
Lemma partKey_shape (value : option (list N)) (part : list N) :
  Glb.extractPartKeyFromCandidate value = Some part ->
  (exists d rest, part = d :: rest /\ isDigit d = true)
  /\ Forall (fun c => isNormalUnit c = true) part.
Proof.
  rewrite extractPartKeyFromCandidate_refines.
  unfold Glb.extractPartKeySpec.
  destruct value as [v|]; [|discriminate].
  destruct (truthy v); [|discriminate].
  set (tokens := List.filter truthy _).
  assert (Htokens : Forall (Forall normal) tokens)
    by (apply filter_Forall, split_normal, normalizeKey_normal).
  pose proof (dropUntil_head Glb.isNumericToken tokens) as Hhead.
  pose proof (dropUntil_Forall _ Glb.isNumericToken _ Htokens) as Hfrom.
  destruct (Glb.dropUntil Glb.isNumericToken tokens) as [|t0 from];
    [discriminate|].
  pose proof (takeUntil_Forall _ (fun t => startsWith t (js "mat")) _ Hfrom) as Hcol.
  cbn [Glb.takeUntil] in Hcol |- *.
  destruct (startsWith t0 (js "mat")); [discriminate|].
  destruct (Glb.takeUntil _ from) as [|t1 more] eqn:Hmore; [discriminate|].
  cbn [length Nat.leb]. rewrite <- stripInstanceSuffix_trailing. intros [= <-].
  split.
  - cbn [Glb.join].
    unfold Glb.isNumericToken in Hhead. apply andb_true_iff in Hhead as [Hne Hdig].
    rewrite stripInstanceSuffix_digits by exact Hdig.
    destruct t0 as [|d t0]; [discriminate Hne|].
    cbn [forallb] in Hdig. apply andb_true_iff in Hdig as [Hd _].
    exists d. eexists. split; [reflexivity | exact Hd].
  - destruct (stripInstanceSuffix_prefix (Glb.join (t0 :: t1 :: more))) as [cut Hcut].
    pose proof (join_normal _ Hcol) as Hjoin. rewrite Hcut in Hjoin.
    apply Forall_app in Hjoin. apply Hjoin.
Qed.

(** X20: the shape of a part key.  Whatever the candidate, a part key that
    [extractPartKeyFromCandidate] returns begins with a decimal digit (the
    part index) and holds only lowercase letters, digits and underscores;
    in particular it is never the empty string. *)
Theorem extractPartKeyFromCandidate_shape (value : option (list N)) (part : list N) :
  Glb.extractPartKeyFromCandidate value = Some part ->
  (exists d rest, part = d :: rest /\ isDigit d = true)
  /\ Forall (fun c => isNormalUnit c = true) part.
Proof. exact (partKey_shape value part). Qed.

Lemma firstPart_cons (candidate : list N) (rest : list (list N)) :
  Glb.firstPart (candidate :: rest)
  = nullish (Glb.extractPartKeyFromCandidate (Some candidate)) (Glb.firstPart rest).
Proof.
  cbn [Glb.firstPart].
  destruct (Glb.extractPartKeyFromCandidate (Some candidate)) as [part|] eqn:He;
    [|reflexivity].
  destruct (proj1 (partKey_shape _ _ He)) as (d & r & -> & _).
  reflexivity.
Qed.

Lemma extract_falsy (value : option (list N)) :
  match value with Some v => truthy v = false | None => True end ->
  Glb.extractPartKeyFromCandidate value = None.
Proof.
  destruct value as [v|]; [|reflexivity].
  intros H. unfold Glb.extractPartKeyFromCandidate. rewrite H. reflexivity.
Qed.

(** X21: the order in which the GLB build mines names for a part key: the
    mesh's own name first, then the material name, then the ancestors from
    the parent outward, where the material name plays no part any more.
    The first name that yields a part key decides. *)
Theorem glb_findPartKeyFromObject_order (o : Object3D) (materialName : option (list N)) :
  Glb.findPartKeyFromObject (Some o) materialName
  = nullish (Glb.extractPartKeyFromCandidate (Some (name o)))
      (nullish (Glb.extractPartKeyFromCandidate materialName)
         (Glb.findPartKeyFromObject (parent o) None)).
Proof.
  assert (Hown : forall rest,
             Glb.firstPart ((if truthy (name o) then [name o] else []) ++ rest)
             = nullish (Glb.extractPartKeyFromCandidate (Some (name o)))
                       (Glb.firstPart rest)).
  { intros rest. destruct (truthy (name o)) eqn:Ht.
    - apply firstPart_cons.
    - rewrite (extract_falsy (Some (name o))) by exact Ht. reflexivity. }
  assert (Hmat : forall rest,
             Glb.firstPart (match materialName with
                            | Some m => if truthy m then [m] else []
                            | None => []
                            end ++ rest)
             = nullish (Glb.extractPartKeyFromCandidate materialName)
                       (Glb.firstPart rest)).
  { intros rest. destruct materialName as [m|]; [|reflexivity].
    destruct (truthy m) eqn:Ht.
    - apply firstPart_cons.
    - rewrite (extract_falsy (Some m)) by exact Ht. reflexivity. }
  unfold Glb.findPartKeyFromObject at 1, Glb.candidatesOf.
  rewrite Hown, Hmat. do 2 f_equal.
  destruct o as [nm|nm p]; cbn [parent]; [reflexivity|].
  unfold Glb.findPartKeyFromObject, Glb.candidatesOf.
  destruct p as [pn|pn pp]; cbn [chain map List.filter name app];
    destruct (truthy pn); reflexivity.
Qed.

End PartKeys.

Lemma extractPartKeyFromCandidate_shape_witness :
  Forall (fun c => Binding.isNormalUnit c = true) (JS.js "4_screw").
Proof.
  refine (proj2 (extractPartKeyFromCandidate_shape
                   (Some (JS.js "Pump 4 Screw_2_low")) (JS.js "4_screw") _)).
  vm_compute. reflexivity.
Defined.
